(** * termbox2_nif: the NIF bridge between the Erlang host and termbox2

    A shallow embedding of [lib/termbox2_nif/c_src/termbox2_nif.c].

    The C file is a table of fourteen NIF handlers.  Twelve of them convert
    their arguments with the [erl_nif] getters and forward one call to the
    termbox2 engine; two of them ([tb_set_title], [tb_set_position]) talk
    to the platform directly: an escape sequence on standard output, or the
    Win32 console API when [_WIN32] is defined.

    Layout of the development:
    - [Erl]      Erlang terms and the part of the [erl_nif] interface the
                 handlers use;
    - [C]        the C-level helpers: buffers, [memcpy], C strings, [printf];
    - [Sys]      the outside world: engine calls, platform calls and the
                 values they return, and the monad that records them;
    - [Nif]      the handlers and the registration table: one definition per
                 C function, with the [#ifdef _WIN32] tail of each decoration
                 handler as a definition of its own;
    - [Table]    vocabulary for the properties that range over the table;
    - facts about the model, then the properties of the handlers, numbered
      C1 to C10 as in the specification's list, and further properties of
      the code, numbered X1 to X15. *)

From Stdlib Require Import ZArith Lia Bool.
From Stdlib Require Import Strings.Byte Strings.String Strings.Ascii.
From Stdlib Require Import DecimalN DecimalZ.
From stdpp Require Import base option list.

Set Warnings "-register-all".
#[local] Open Scope Z_scope.

(* ------------------------------------------------------------------ *)
(** ** Erlang terms and the erl_nif getters *)

Module Erl.

(** The [enif_*] functions belong to the Erlang runtime, not to this
    repository; they are written here as the erl_nif reference documents
    them (and, for [enif_get_string], as its loop in the runtime reads). *)

(** The boundary values.  Integers are unbounded (Erlang has bignums);
    a list is [TNil] or a cons cell whose tail is any term, so improper
    lists exist; a binary is a sequence of whole bytes. *)
Inductive term : Type :=
| TInt (z : Z)
| TFloat (bits : Z)
| TAtom (name : string)
| TBinary (data : list byte)
| TNil
| TCons (hd tl : term)
| TTuple (elems : list term).

(** What a NIF hands back: a term, or the pending [badarg] exception
    that [enif_make_badarg] arms. *)
Inductive nif_result : Type :=
| Return (t : term)
| RaiseBadarg.

(** Native widths of [int] and [unsigned int]. *)
Definition INT_MIN : Z := - 2 ^ 31.
Definition INT_MAX : Z := 2 ^ 31 - 1.
Definition UINT_MAX : Z := 2 ^ 32 - 1.

Definition fits_int (z : Z) : bool := (INT_MIN <=? z) && (z <=? INT_MAX).
Definition fits_uint (z : Z) : bool := (0 <=? z) && (z <=? UINT_MAX).

(** [enif_get_int]: succeeds on an integer term that fits [int], and
    stores that very value. *)
Definition enif_get_int (t : term) : option Z :=
  match t with
  | TInt z => if fits_int z then Some z else None
  | _ => None
  end.

(** [enif_get_uint]: the same for [unsigned int]. *)
Definition enif_get_uint (t : term) : option Z :=
  match t with
  | TInt z => if fits_uint z then Some z else None
  | _ => None
  end.

Definition enif_is_binary (t : term) : bool :=
  match t with TBinary _ => true | _ => false end.

(** [enif_inspect_binary]: [bin.data] (with [bin.size] its length). *)
Definition enif_inspect_binary (t : term) : option (list byte) :=
  match t with TBinary data => Some data | _ => None end.

(** [is_byte]: a small integer in [0, 255]. *)
Definition is_byte (t : term) : option byte :=
  match t with
  | TInt z => if (0 <=? z) && (z <=? 255) then Byte.of_N (Z.to_N z) else None
  | _ => None
  end.

(** The loop of [enif_get_string] for [ERL_NIF_LATIN1]: [n] bytes are
    already in [buf], whose size is [len].

    - end of list: terminate, return the bytes written with the
      terminator counted;
    - not a list cell, or a head that is no byte: terminate, return 0;
    - the buffer is full after this byte: overwrite it with the
      terminator, return [-len]. *)
Fixpoint get_string_loop (l : term) (buf : list byte) (n len : nat)
  : Z * list byte :=
  match l with
  | TNil => (Z.of_nat n + 1, <[n := x00]> buf)
  | TCons hd tl =>
      match is_byte hd with
      | None => (0, <[n := x00]> buf)
      | Some b =>
          let buf' := <[n := b]> buf in
          if bool_decide (len ≤ S n)%nat
          then (- Z.of_nat len, <[n := x00]> buf')
          else get_string_loop tl buf' (S n) len
      end
  | _ => (0, <[n := x00]> buf)
  end.

(** [enif_get_string(env, list, buf, len, ERL_NIF_LATIN1)]: the return
    code and the buffer afterwards. *)
Definition enif_get_string (l : term) (buf : list byte) (len : nat)
  : Z * list byte :=
  if bool_decide (len < 1)%nat then (0, buf) else get_string_loop l buf 0 len.

Definition enif_make_int (z : Z) : term := TInt z.
Definition enif_make_atom (name : string) : term := TAtom name.
Definition enif_make_tuple2 (a b : term) : term := TTuple [a; b].

(** [enif_make_string(env, s, ERL_NIF_LATIN1)]: the list of the code
    points of [s]. *)
Definition enif_make_string (s : string) : term :=
  foldr (fun b tl => TCons (TInt (Z.of_N (Byte.to_N b))) tl) TNil
        (list_byte_of_string s).

Definition enif_make_badarg : nif_result := RaiseBadarg.

(** The Erlang string (list of code points) of a byte sequence. *)
Definition charlist (bs : list byte) : term :=
  foldr (fun b tl => TCons (TInt (Z.of_N (Byte.to_N b))) tl) TNil bs.

End Erl.

(* ------------------------------------------------------------------ *)
(** ** C helpers *)

Module C.

(** [memcpy(dst, src, n)] on buffers as lists; the caller owes
    [n <= length src] and [n <= length dst]. *)
Definition memcpy (dst src : list byte) (n : nat) : list byte :=
  take n src ++ drop n dst.

(** The two statements
    [memcpy(buf, bin.data, bin.size); buf[bin.size] = '\0';]
    of [nif_tb_print] and [tb_set_title].  A store past the end of
    [buf] is undefined in C; [<[_:=_]>] leaves the list alone there, and
    both callers rule the case out before they get here. *)
Definition null_terminate (buf data : list byte) : list byte :=
  <[length data := x00]> (memcpy buf data (length data)).

(** The C string held in a buffer: the bytes before the first zero. *)
Fixpoint cstr (buf : list byte) : list byte :=
  match buf with
  | [] => []
  | b :: rest => if Byte.eqb b x00 then [] else b :: cstr rest
  end.

(** Decimal digits, most significant first. *)
Fixpoint bytes_of_uint (d : Decimal.uint) : list byte :=
  match d with
  | Decimal.Nil => []
  | Decimal.D0 d => x30 :: bytes_of_uint d
  | Decimal.D1 d => x31 :: bytes_of_uint d
  | Decimal.D2 d => x32 :: bytes_of_uint d
  | Decimal.D3 d => x33 :: bytes_of_uint d
  | Decimal.D4 d => x34 :: bytes_of_uint d
  | Decimal.D5 d => x35 :: bytes_of_uint d
  | Decimal.D6 d => x36 :: bytes_of_uint d
  | Decimal.D7 d => x37 :: bytes_of_uint d
  | Decimal.D8 d => x38 :: bytes_of_uint d
  | Decimal.D9 d => x39 :: bytes_of_uint d
  end.

(** The conversion [%d]: a minus sign for a negative value, then the
    digits of the magnitude, no padding. *)
Definition fmt_d (z : Z) : list byte :=
  match Z.to_int z with
  | Decimal.Pos d => bytes_of_uint d
  | Decimal.Neg d => x2d :: bytes_of_uint d
  end.

(** A format string cut at its conversions. *)
Inductive piece : Type :=
| Lit (s : list byte)
| FmtS (buf : list byte)
| FmtD (z : Z).

Definition render_piece (p : piece) : list byte :=
  match p with
  | Lit s => s
  | FmtS buf => cstr buf
  | FmtD z => fmt_d z
  end.

(** The bytes [printf] produces for a format. *)
Definition render (fmt : list piece) : list byte :=
  concat (map render_piece fmt).

Definition ESC : byte := x1b.
Definition BEL : byte := x07.

(** Reading decimal notation back, to say what the output of [%d]
    denotes: digits only, with an optional leading minus sign. *)
Definition digit_of_byte (b : byte) : option (Decimal.uint -> Decimal.uint) :=
  match b with
  | x30 => Some Decimal.D0 | x31 => Some Decimal.D1 | x32 => Some Decimal.D2
  | x33 => Some Decimal.D3 | x34 => Some Decimal.D4 | x35 => Some Decimal.D5
  | x36 => Some Decimal.D6 | x37 => Some Decimal.D7 | x38 => Some Decimal.D8
  | x39 => Some Decimal.D9
  | _ => None
  end.

Fixpoint uint_of_bytes (bs : list byte) : option Decimal.uint :=
  match bs with
  | [] => Some Decimal.Nil
  | b :: rest =>
      match digit_of_byte b, uint_of_bytes rest with
      | Some d, Some u => Some (d u)
      | _, _ => None
      end
  end.

Definition read_d (bs : list byte) : option Z :=
  match bs with
  | [] => None
  | b :: ds =>
      if Byte.eqb b x2d
      then match ds with
           | [] => None
           | _ => option_map (fun u => Z.of_int (Decimal.Neg u)) (uint_of_bytes ds)
           end
      else option_map (fun u => Z.of_int (Decimal.Pos u)) (uint_of_bytes bs)
  end.

End C.

(* ------------------------------------------------------------------ *)
(** ** The outside world *)

Module Sys.
Import Erl C.

(** The calls into termbox2, with the native values they receive.  A
    [char *] argument is recorded as the C string it points to. *)
Inductive engine_call : Type :=
| Tb_init
| Tb_shutdown
| Tb_width
| Tb_height
| Tb_clear
| Tb_present
| Tb_set_cursor (x y : Z)
| Tb_hide_cursor
| Tb_set_cell (x y ch fg bg : Z)
| Tb_set_input_mode (mode : Z)
| Tb_set_output_mode (mode : Z)
| Tb_print (x y fg bg : Z) (str : list byte).

(** Everything a handler can do besides computing its result. *)
Inductive event : Type :=
| EvEngine (c : engine_call)
| EvPrintf (out : list byte)
| EvFflush
| EvSetConsoleTitle (title : list byte)
| EvGetConsoleWindow
| EvGetWindowRect (hwnd : Z)
| EvMoveWindow (hwnd x y width height : Z).

Definition trace : Type := list event.

Inductive target : Type := Posix | Win32.

Record RECT : Type := mkRECT { left : Z; top : Z; right : Z; bottom : Z }.

(** What the handlers cannot decide: the build target ([#ifdef _WIN32]),
    the values the engine and the platform return, and the bytes found in
    storage that was never written. *)
Record world : Type := mkWorld {
  build : target;
  engine_ret : engine_call -> Z;
  printf_ret : list byte -> Z;
  SetConsoleTitle_ret : list byte -> bool;
  GetConsoleWindow_ret : Z;
  GetWindowRect_ret : Z -> option RECT;
  MoveWindow_ret : Z -> Z -> Z -> Z -> Z -> bool;
  uninit : nat -> byte;
  fflush_ret : Z
}.

(** A computation reads the world, logs its events in order and may be
    undefined ([None]): the only undefined step modelled is reading
    [argv] past [argc]. *)
Definition M (A : Type) : Type := world -> option (A * trace).

Definition ret {A} (a : A) : M A := fun _ => Some (a, []).

Definition bind {A B} (m : M A) (k : A -> M B) : M B :=
  fun W =>
    match m W with
    | None => None
    | Some (a, t1) =>
        match k a W with
        | None => None
        | Some (b, t2) => Some (b, t1 ++ t2)
        end
    end.

Notation "x <~ m ;; k" := (bind m (fun x => k))
  (at level 100, m at next level, right associativity).
Notation "m ;;; k" := (bind m (fun _ => k))
  (at level 100, right associativity).

Definition ask {A} (f : world -> A) : M A := fun W => Some (f W, []).
Definition log (e : event) : M unit := fun _ => Some (tt, [e]).

(** [argv[i]]. *)
Definition arg (argv : list term) (i : nat) : M term :=
  fun _ => match argv !! i with Some t => Some (t, []) | None => None end.

(** A call into the engine and the [int] it returns (ignored by the
    callers of the [void]-like entry points). *)
Definition engine (c : engine_call) : M Z :=
  log (EvEngine c) ;;; ask (fun W => engine_ret W c).

(** [printf(fmt, ...)] on standard output. *)
Definition printf (fmt : list piece) : M Z :=
  log (EvPrintf (render fmt)) ;;; ask (fun W => printf_ret W (render fmt)).

(** [fflush(stdout)] and the [int] it returns: 0, or [EOF] when the
    buffered bytes could not be written.  Both callers drop it. *)
Definition fflush_stdout : M Z := log EvFflush ;;; ask fflush_ret.

Definition SetConsoleTitle (title : list byte) : M bool :=
  log (EvSetConsoleTitle (cstr title)) ;;;
  ask (fun W => SetConsoleTitle_ret W (cstr title)).

Definition GetConsoleWindow : M Z :=
  log EvGetConsoleWindow ;;; ask GetConsoleWindow_ret.

Definition GetWindowRect (hwnd : Z) : M (option RECT) :=
  log (EvGetWindowRect hwnd) ;;; ask (fun W => GetWindowRect_ret W hwnd).

Definition MoveWindow (hwnd x y width height : Z) : M bool :=
  log (EvMoveWindow hwnd x y width height) ;;;
  ask (fun W => MoveWindow_ret W hwnd x y width height).

(** Storage of [n] bytes that nothing has written yet ([char title[256]],
    the block [malloc] returns; a failing [malloc] is not modelled, the
    source does not test for it either). *)
Definition block (W : world) (n : nat) : list byte :=
  map (uninit W) (seq 0 n).

Definition fresh_buffer (n : nat) : M (list byte) :=
  ask (fun W => block W n).

(** Sample worlds for concrete runs: one where every outside call
    succeeds; one whose [printf] fails; one whose [printf] fills the
    buffer of standard output and whose [fflush] then fails to write it
    (it returns [EOF], -1). *)
Definition calm (t : target) : world :=
  mkWorld t (fun _ => 0) (fun out => Z.of_nat (length out)) (fun _ => true)
          1 (fun _ => Some (mkRECT 0 0 640 480)) (fun _ _ _ _ _ => true)
          (fun _ => xff) 0.

Definition broken_stdout : world :=
  mkWorld Posix (fun _ => 0) (fun _ => -1) (fun _ => true)
          1 (fun _ => Some (mkRECT 0 0 640 480)) (fun _ _ _ _ _ => true)
          (fun _ => xff) (-1).

(** The world [W] with [fflush] returning [e] instead. *)
Definition with_fflush_ret (e : Z) (W : world) : world :=
  mkWorld (build W) (engine_ret W) (printf_ret W) (SetConsoleTitle_ret W)
          (GetConsoleWindow_ret W) (GetWindowRect_ret W) (MoveWindow_ret W)
          (uninit W) e.

Definition broken_flush : world :=
  mkWorld Posix (fun _ => 0) (fun out => Z.of_nat (length out)) (fun _ => true)
          1 (fun _ => Some (mkRECT 0 0 640 480)) (fun _ _ _ _ _ => true)
          (fun _ => xff) (-1).

End Sys.

(* ------------------------------------------------------------------ *)
(** ** The handlers *)

Module Nif.
Import Erl C Sys.

Definition bytes (s : string) : list byte := list_byte_of_string s.

(** The three result shapes of the decoration handlers. *)
Definition error_badarg : term :=
  enif_make_tuple2 (enif_make_atom "error") (enif_make_atom "badarg").

Definition error_string (msg : string) : term :=
  enif_make_tuple2 (enif_make_atom "error") (enif_make_string msg).

Definition ok_set : term :=
  enif_make_tuple2 (enif_make_atom "ok") (enif_make_string "set").

(** tb_init/0 *)
Definition nif_tb_init (argc : Z) (argv : list term) : M nif_result :=
  result <~ engine Tb_init ;;
  ret (Return (enif_make_int result)).

(** tb_shutdown/0 *)
Definition nif_tb_shutdown (argc : Z) (argv : list term) : M nif_result :=
  engine Tb_shutdown ;;;
  ret (Return (enif_make_atom "ok")).

(** tb_width/0 *)
Definition nif_tb_width (argc : Z) (argv : list term) : M nif_result :=
  result <~ engine Tb_width ;;
  ret (Return (enif_make_int result)).

(** tb_height/0 *)
Definition nif_tb_height (argc : Z) (argv : list term) : M nif_result :=
  result <~ engine Tb_height ;;
  ret (Return (enif_make_int result)).

(** tb_clear/0 *)
Definition nif_tb_clear (argc : Z) (argv : list term) : M nif_result :=
  engine Tb_clear ;;;
  ret (Return (enif_make_atom "ok")).

(** tb_present/0 *)
Definition nif_tb_present (argc : Z) (argv : list term) : M nif_result :=
  engine Tb_present ;;;
  ret (Return (enif_make_atom "ok")).

(** tb_set_cursor/2.  [||] evaluates left to right and stops at the
    first getter that fails, so [argv[1]] is read only after [argv[0]]
    converted. *)
Definition nif_tb_set_cursor (argc : Z) (argv : list term) : M nif_result :=
  a0 <~ arg argv 0 ;;
  match enif_get_int a0 with
  | None => ret enif_make_badarg
  | Some x =>
      a1 <~ arg argv 1 ;;
      match enif_get_int a1 with
      | None => ret enif_make_badarg
      | Some y =>
          engine (Tb_set_cursor x y) ;;;
          ret (Return (enif_make_atom "ok"))
      end
  end.

(** tb_hide_cursor/0 *)
Definition nif_tb_hide_cursor (argc : Z) (argv : list term) : M nif_result :=
  result <~ engine Tb_hide_cursor ;;
  ret (Return (enif_make_int result)).

(** tb_set_cell/5 *)
Definition nif_tb_set_cell (argc : Z) (argv : list term) : M nif_result :=
  a0 <~ arg argv 0 ;;
  match enif_get_int a0 with
  | None => ret enif_make_badarg
  | Some x =>
  a1 <~ arg argv 1 ;;
  match enif_get_int a1 with
  | None => ret enif_make_badarg
  | Some y =>
  a2 <~ arg argv 2 ;;
  match enif_get_uint a2 with
  | None => ret enif_make_badarg
  | Some ch =>
  a3 <~ arg argv 3 ;;
  match enif_get_uint a3 with
  | None => ret enif_make_badarg
  | Some fg =>
  a4 <~ arg argv 4 ;;
  match enif_get_uint a4 with
  | None => ret enif_make_badarg
  | Some bg =>
      result <~ engine (Tb_set_cell x y ch fg bg) ;;
      ret (Return (enif_make_int result))
  end end end end end.

(** tb_set_input_mode/1 *)
Definition nif_tb_set_input_mode (argc : Z) (argv : list term)
  : M nif_result :=
  a0 <~ arg argv 0 ;;
  match enif_get_int a0 with
  | None => ret enif_make_badarg
  | Some mode =>
      result <~ engine (Tb_set_input_mode mode) ;;
      ret (Return (enif_make_int result))
  end.

(** tb_set_output_mode/1 *)
Definition nif_tb_set_output_mode (argc : Z) (argv : list term)
  : M nif_result :=
  a0 <~ arg argv 0 ;;
  match enif_get_int a0 with
  | None => ret enif_make_badarg
  | Some mode =>
      result <~ engine (Tb_set_output_mode mode) ;;
      ret (Return (enif_make_int result))
  end.

(** tb_print/5 (x, y, fg, bg, string).  The copy is [bin.size + 1] bytes
    long; it is freed after the engine call, which leaves no event. *)
Definition nif_tb_print (argc : Z) (argv : list term) : M nif_result :=
  a0 <~ arg argv 0 ;;
  match enif_get_int a0 with
  | None => ret enif_make_badarg
  | Some x =>
  a1 <~ arg argv 1 ;;
  match enif_get_int a1 with
  | None => ret enif_make_badarg
  | Some y =>
  a2 <~ arg argv 2 ;;
  match enif_get_uint a2 with
  | None => ret enif_make_badarg
  | Some fg =>
  a3 <~ arg argv 3 ;;
  match enif_get_uint a3 with
  | None => ret enif_make_badarg
  | Some bg =>
  a4 <~ arg argv 4 ;;
  match enif_inspect_binary a4 with
  | None => ret enif_make_badarg
  | Some bin =>
      str0 <~ fresh_buffer (length bin + 1) ;;
      let str := null_terminate str0 bin in
      result <~ engine (Tb_print x y fg bg (cstr str)) ;;
      ret (Return (enif_make_int result))
  end end end end end.

(** The tail of [tb_set_title] once [title] is filled: the two arms of
    [#ifdef _WIN32]. *)
Definition set_title_platform (title : list byte) : M nif_result :=
  tgt <~ ask build ;;
  match tgt with
  | Win32 =>
      done <~ SetConsoleTitle title ;;
      if done then ret (Return ok_set)
      else ret (Return (error_string "SetConsoleTitle failed"))
  | Posix =>
      r <~ printf [Lit (ESC :: bytes "]0;"); FmtS title; Lit [BEL]] ;;
      if r <? 0 then ret (Return (error_string "Failed to set title"))
      else
        fflush_stdout ;;;
        ret (Return ok_set)
  end.

(** [sizeof(title)] *)
Definition TITLE_SIZE : nat := 256.

(** tb_set_title/1.  A binary is measured, copied and terminated; anything
    else goes to [enif_get_string], whose return value is used as a
    truth value. *)
Definition tb_set_title (argc : Z) (argv : list term) : M nif_result :=
  if negb (argc =? 1) then ret (Return error_badarg)
  else
    title <~ fresh_buffer TITLE_SIZE ;;
    a0 <~ arg argv 0 ;;
    if enif_is_binary a0 then
      match enif_inspect_binary a0 with
      | None => ret (Return error_badarg)
      | Some bin =>
          if bool_decide (TITLE_SIZE ≤ length bin)%nat
          then ret (Return error_badarg)
          else set_title_platform (null_terminate title bin)
      end
    else
      let '(rc, title') := enif_get_string a0 title TITLE_SIZE in
      if negb (rc =? 0) then set_title_platform title'
      else ret (Return error_badarg).

(** The tail of [tb_set_position] once [x] and [y] passed the checks. *)
Definition set_position_platform (x y : Z) : M nif_result :=
  tgt <~ ask build ;;
  match tgt with
  | Win32 =>
      hwnd <~ GetConsoleWindow ;;
      if hwnd =? 0 then ret (Return (error_string "GetConsoleWindow failed"))
      else
        got <~ GetWindowRect hwnd ;;
        match got with
        | None => ret (Return (error_string "GetWindowRect failed"))
        | Some rect =>
            let width := right rect - left rect in
            let height := bottom rect - top rect in
            moved <~ MoveWindow hwnd x y width height ;;
            if moved then ret (Return ok_set)
            else ret (Return (error_string "MoveWindow failed"))
        end
  | Posix =>
      r <~ printf [Lit (ESC :: bytes "[3;"); FmtD y; Lit (bytes ";");
                   FmtD x; Lit (bytes "t")] ;;
      if r <? 0 then ret (Return (error_string "Failed to set position"))
      else
        fflush_stdout ;;;
        ret (Return ok_set)
  end.

(** tb_set_position/2 *)
Definition tb_set_position (argc : Z) (argv : list term) : M nif_result :=
  if negb (argc =? 2) then ret (Return error_badarg)
  else
    a0 <~ arg argv 0 ;;
    match enif_get_int a0 with
    | None => ret (Return error_badarg)
    | Some x =>
        a1 <~ arg argv 1 ;;
        match enif_get_int a1 with
        | None => ret (Return error_badarg)
        | Some y =>
            if (x <? 0) || (y <? 0) || (x >? 32767) || (y >? 32767)
            then ret (Return error_badarg)
            else set_position_platform x y
        end
    end.

(** An entry of [nif_funcs]: name, arity, handler. *)
Record ErlNifFunc : Type := mkFunc {
  name : string;
  arity : nat;
  fptr : Z -> list term -> M nif_result
}.

Definition nif_funcs : list ErlNifFunc :=
  [ mkFunc "tb_init" 0 nif_tb_init;
    mkFunc "tb_shutdown" 0 nif_tb_shutdown;
    mkFunc "tb_width" 0 nif_tb_width;
    mkFunc "tb_height" 0 nif_tb_height;
    mkFunc "tb_clear" 0 nif_tb_clear;
    mkFunc "tb_present" 0 nif_tb_present;
    mkFunc "tb_set_cursor" 2 nif_tb_set_cursor;
    mkFunc "tb_hide_cursor" 0 nif_tb_hide_cursor;
    mkFunc "tb_set_cell" 5 nif_tb_set_cell;
    mkFunc "tb_set_input_mode" 1 nif_tb_set_input_mode;
    mkFunc "tb_set_output_mode" 1 nif_tb_set_output_mode;
    mkFunc "tb_print" 5 nif_tb_print;
    mkFunc "tb_set_title" 1 tb_set_title;
    mkFunc "tb_set_position" 2 tb_set_position ].

(** What [ERL_NIF_INIT] makes of the table: a call [name(argv...)] from
    the host runs the entry with that name and that many arguments, with
    [argc] the number of arguments; without such an entry no handler of
    this file runs. *)
Definition lookup_nif (f : string) (n : nat) : option ErlNifFunc :=
  find (fun e => String.eqb (name e) f && Nat.eqb (arity e) n) nif_funcs.

Definition call_nif (f : string) (argv : list term) : option (M nif_result) :=
  match lookup_nif f (length argv) with
  | Some e => Some (fptr e (Z.of_nat (length argv)) argv)
  | None => None
  end.

(** How this file signals an invalid argument: the [badarg] exception of
    the engine handlers, the [{error, badarg}] tuple of the decoration
    handlers. *)
Definition invalid_argument (r : nif_result) : Prop :=
  r = RaiseBadarg \/ r = Return error_badarg.

(** An argument that converts to [int], to [unsigned int], to a binary;
    and the native value of an integer argument. *)
Definition int_arg (t : term) : bool :=
  match t with TInt z => fits_int z | _ => false end.

Definition uint_arg (t : term) : bool :=
  match t with TInt z => fits_uint z | _ => false end.

Definition binary_arg (t : term) : bool :=
  match t with TBinary _ => true | _ => false end.

Definition int_val (t : term) : Z :=
  match t with TInt z => z | _ => 0 end.

Definition binary_val (t : term) : list byte :=
  match t with TBinary data => data | _ => [] end.

(** The outcome classes of the decoration handlers and the term each one
    is returned as. *)
Inductive outcome : Type :=
| InvalidArgument
| PlatformCallFailed (msg : string)
| TitleOrPositionSet.

Definition term_of_outcome (o : outcome) : term :=
  match o with
  | InvalidArgument => error_badarg
  | PlatformCallFailed msg => error_string msg
  | TitleOrPositionSet => ok_set
  end.

End Nif.

(* ------------------------------------------------------------------ *)
(** ** Vocabulary for the properties of the whole table *)

Module Table.
Import Erl C Sys Nif.

(** The termbox2 function behind an engine call. *)
Definition engine_call_name (c : engine_call) : string :=
  match c with
  | Tb_init => "tb_init"
  | Tb_shutdown => "tb_shutdown"
  | Tb_width => "tb_width"
  | Tb_height => "tb_height"
  | Tb_clear => "tb_clear"
  | Tb_present => "tb_present"
  | Tb_set_cursor _ _ => "tb_set_cursor"
  | Tb_hide_cursor => "tb_hide_cursor"
  | Tb_set_cell _ _ _ _ _ => "tb_set_cell"
  | Tb_set_input_mode _ => "tb_set_input_mode"
  | Tb_set_output_mode _ => "tb_set_output_mode"
  | Tb_print _ _ _ _ _ => "tb_print"
  end.

(** The calls whose handler drops what the engine returns and answers
    with the atom [ok]. *)
Definition discards_status (c : engine_call) : bool :=
  match c with
  | Tb_shutdown | Tb_clear | Tb_present | Tb_set_cursor _ _ => true
  | _ => false
  end.

(** The two entries that bypass the engine. *)
Definition decoration (e : ErlNifFunc) : bool :=
  String.eqb (name e) "tb_set_title" || String.eqb (name e) "tb_set_position".

(** The outside calls each arm of [#ifdef _WIN32] is made of. *)
Definition arm_event (t : target) (ev : event) : bool :=
  match t, ev with
  | Posix, (EvPrintf _ | EvFflush) => true
  | Win32, (EvSetConsoleTitle _ | EvGetConsoleWindow | EvGetWindowRect _
            | EvMoveWindow _ _ _ _ _) => true
  | _, _ => false
  end.

(** An Erlang list cell by cell: the code points of [bs] in front of any
    term [tl] (the empty list for a proper string). *)
Definition prepend (bs : list byte) (tl : term) : term :=
  foldr (fun b t => TCons (TInt (Z.of_N (Byte.to_N b))) t) tl bs.

(** Where [enif_get_string] gives up: a term that is neither the empty
    list nor a cell holding a Latin-1 code point. *)
Definition not_a_string (t : term) : bool :=
  match t with
  | TNil => false
  | TCons hd _ => match is_byte hd with Some _ => false | None => true end
  | _ => true
  end.

(** The bytes of the position sequence for [x] and [y]. *)
Definition position_sequence (x y : Z) : list byte :=
  ESC :: bytes "[3;" ++ fmt_d y ++ bytes ";" ++ fmt_d x ++ bytes "t".

End Table.

(* ------------------------------------------------------------------ *)
(** ** Facts about the model *)

Import Erl C Sys Nif Table.

#[local] Arguments enif_get_int : simpl never.
#[local] Arguments enif_get_uint : simpl never.
#[local] Arguments enif_get_string : simpl never.
#[local] Arguments null_terminate : simpl never.
#[local] Arguments fmt_d : simpl never.
#[local] Arguments cstr : simpl never.
#[local] Arguments block : simpl never.
#[local] Arguments set_title_platform : simpl never.
#[local] Arguments set_position_platform : simpl never.

(** Unfolds the monad and the wrappers of the outside calls. *)
Ltac run :=
  cbv [bind ret ask log arg engine printf fflush_stdout fresh_buffer
       SetConsoleTitle GetConsoleWindow GetWindowRect MoveWindow
       enif_make_badarg enif_make_int enif_make_atom]; cbn.

Section Getters.

Lemma fits_int_iff z : fits_int z = true <-> INT_MIN <= z <= INT_MAX.
Proof. unfold fits_int. rewrite andb_true_iff, !Z.leb_le. tauto. Qed.

Lemma fits_uint_iff z : fits_uint z = true <-> 0 <= z <= UINT_MAX.
Proof. unfold fits_uint. rewrite andb_true_iff, !Z.leb_le. tauto. Qed.

Lemma enif_get_int_TInt z :
  enif_get_int (TInt z) = if fits_int z then Some z else None.
Proof. reflexivity. Qed.

Lemma enif_get_uint_TInt z :
  enif_get_uint (TInt z) = if fits_uint z then Some z else None.
Proof. reflexivity. Qed.

Lemma enif_get_int_Some t z :
  enif_get_int t = Some z <-> t = TInt z /\ INT_MIN <= z <= INT_MAX.
Proof.
  split.
  - destruct t; try discriminate. rewrite enif_get_int_TInt.
    destruct (fits_int z0) eqn:F; [|discriminate].
    intros [= ->]. apply fits_int_iff in F. auto.
  - intros [-> H]. rewrite enif_get_int_TInt.
    apply fits_int_iff in H. now rewrite H.
Qed.

Lemma enif_get_uint_Some t z :
  enif_get_uint t = Some z <-> t = TInt z /\ 0 <= z <= UINT_MAX.
Proof.
  split.
  - destruct t; try discriminate. rewrite enif_get_uint_TInt.
    destruct (fits_uint z0) eqn:F; [|discriminate].
    intros [= ->]. apply fits_uint_iff in F. auto.
  - intros [-> H]. rewrite enif_get_uint_TInt.
    apply fits_uint_iff in H. now rewrite H.
Qed.

Lemma enif_get_int_fits z :
  INT_MIN <= z <= INT_MAX -> enif_get_int (TInt z) = Some z.
Proof. intros H. apply enif_get_int_Some. auto. Qed.

Lemma enif_get_uint_fits z :
  0 <= z <= UINT_MAX -> enif_get_uint (TInt z) = Some z.
Proof. intros H. apply enif_get_uint_Some. auto. Qed.

End Getters.

Section Buffers.

Lemma length_block (W : world) (n : nat) : length (block W n) = n.
Proof. unfold block. now rewrite length_map, length_seq. Qed.

(** With room for the terminator, the buffer becomes the data, one zero
    byte, and whatever was there behind. *)
Lemma null_terminate_eq (buf data : list byte) :
  (length data < length buf)%nat ->
  null_terminate buf data = data ++ x00 :: drop (S (length data)) buf.
Proof.
  intros Hlen. unfold null_terminate, memcpy.
  rewrite take_ge by lia.
  rewrite insert_app_r_alt by lia. rewrite Nat.sub_diag.
  destruct (lookup_lt_is_Some_2 buf (length data) Hlen) as [b Hb].
  now rewrite (drop_S _ _ _ Hb).
Qed.

Lemma length_null_terminate (buf data : list byte) :
  (length data < length buf)%nat ->
  length (null_terminate buf data) = length buf.
Proof.
  intros Hlen. unfold null_terminate, memcpy.
  rewrite length_insert, length_app, length_take, length_drop. lia.
Qed.

Lemma cstr_cons (b : byte) (rest : list byte) :
  cstr (b :: rest) = if Byte.eqb b x00 then [] else b :: cstr rest.
Proof. reflexivity. Qed.

(** Only the bytes before the first zero are seen through [%s]. *)
Lemma cstr_app_nul (data rest : list byte) :
  cstr (data ++ x00 :: rest) = cstr data.
Proof.
  induction data as [|b data IH]; [reflexivity|].
  cbn [app]. rewrite !cstr_cons, IH. reflexivity.
Qed.

Lemma cstr_no_nul (data : list byte) :
  x00 ∉ data -> cstr data = data.
Proof.
  induction data as [|b data IH]; intros Hnot; [reflexivity|].
  rewrite cstr_cons. apply not_elem_of_cons in Hnot as [Hb Hd].
  destruct (Byte.eqb b x00) eqn:E.
  - apply Byte.byte_dec_bl in E. congruence.
  - now rewrite IH.
Qed.


End Buffers.

Section Decimal.

Lemma uint_of_bytes_of_uint (d : Decimal.uint) :
  uint_of_bytes (bytes_of_uint d) = Some d.
Proof. induction d; cbn; [reflexivity | now rewrite IHd ..]. Qed.

Lemma bytes_of_uint_digit_first (d : Decimal.uint) :
  d <> Decimal.Nil ->
  exists b rest, bytes_of_uint d = b :: rest /\ Byte.eqb b x2d = false.
Proof. destruct d; [congruence | intros _; cbn; eauto ..]. Qed.

Lemma to_int_nonnil (z : Z) :
  match Z.to_int z with Decimal.Pos d | Decimal.Neg d => d <> Decimal.Nil end.
Proof.
  destruct z; cbn; [discriminate | apply DecimalPos.Unsigned.to_uint_nonnil ..].
Qed.

(** [%d] writes decimal notation: reading its output gives the number. *)
Lemma read_d_fmt_d (z : Z) : read_d (fmt_d z) = Some z.
Proof.
  unfold fmt_d. pose proof (to_int_nonnil z) as Hnn.
  pose proof (DecimalZ.of_to z) as Hz.
  destruct (Z.to_int z) as [d|d].
  - destruct (bytes_of_uint_digit_first d Hnn) as (b & rest & E & Hb).
    unfold read_d. rewrite E, Hb, <- E, uint_of_bytes_of_uint. cbn [option_map]. now rewrite Hz.
  - unfold read_d. change (Byte.eqb x2d x2d) with true. cbv iota.
    destruct (bytes_of_uint_digit_first d Hnn) as (b & rest & E & _).
    rewrite E, <- E, uint_of_bytes_of_uint. cbn [option_map]. now rewrite Hz.
Qed.

Lemma fmt_d_inj (a b : Z) : fmt_d a = fmt_d b -> a = b.
Proof.
  intros E. apply (f_equal read_d) in E. rewrite !read_d_fmt_d in E. congruence.
Qed.

End Decimal.

Section Handlers.

Variable W : world.

Lemma int_arg_get (t : term) :
  enif_get_int t = if int_arg t then Some (int_val t) else None.
Proof. destruct t; reflexivity. Qed.

Lemma uint_arg_get (t : term) :
  enif_get_uint t = if uint_arg t then Some (int_val t) else None.
Proof. destruct t; reflexivity. Qed.

Lemma binary_arg_inspect (t : term) :
  enif_inspect_binary t = if binary_arg t then Some (binary_val t) else None.
Proof. destruct t; reflexivity. Qed.

(** Each handler with integer arguments, as one test on the whole tuple:
    the getters run left to right, and the first failure returns. *)
Lemma nif_tb_set_cursor_eq (a0 a1 : term) :
  nif_tb_set_cursor 2 [a0; a1] W =
    if int_arg a0 && int_arg a1
    then Some (Return (TAtom "ok"),
               [EvEngine (Tb_set_cursor (int_val a0) (int_val a1))])
    else Some (RaiseBadarg, []).
Proof.
  unfold nif_tb_set_cursor. run. rewrite !int_arg_get.
  destruct (int_arg a0), (int_arg a1); reflexivity.
Qed.

Lemma nif_tb_set_cell_eq (a0 a1 a2 a3 a4 : term) :
  nif_tb_set_cell 5 [a0; a1; a2; a3; a4] W =
    if int_arg a0 && int_arg a1 && uint_arg a2 && uint_arg a3 && uint_arg a4
    then
      let c := Tb_set_cell (int_val a0) (int_val a1)
                           (int_val a2) (int_val a3) (int_val a4) in
      Some (Return (TInt (engine_ret W c)), [EvEngine c])
    else Some (RaiseBadarg, []).
Proof.
  unfold nif_tb_set_cell. run. rewrite !int_arg_get, !uint_arg_get.
  destruct (int_arg a0), (int_arg a1), (uint_arg a2), (uint_arg a3),
    (uint_arg a4); reflexivity.
Qed.

Lemma nif_tb_set_input_mode_eq (a0 : term) :
  nif_tb_set_input_mode 1 [a0] W =
    if int_arg a0
    then let c := Tb_set_input_mode (int_val a0) in
         Some (Return (TInt (engine_ret W c)), [EvEngine c])
    else Some (RaiseBadarg, []).
Proof.
  unfold nif_tb_set_input_mode. run. rewrite !int_arg_get.
  destruct (int_arg a0); reflexivity.
Qed.

Lemma nif_tb_set_output_mode_eq (a0 : term) :
  nif_tb_set_output_mode 1 [a0] W =
    if int_arg a0
    then let c := Tb_set_output_mode (int_val a0) in
         Some (Return (TInt (engine_ret W c)), [EvEngine c])
    else Some (RaiseBadarg, []).
Proof.
  unfold nif_tb_set_output_mode. run. rewrite !int_arg_get.
  destruct (int_arg a0); reflexivity.
Qed.

Lemma nif_tb_print_eq (a0 a1 a2 a3 a4 : term) :
  nif_tb_print 5 [a0; a1; a2; a3; a4] W =
    if int_arg a0 && int_arg a1 && uint_arg a2 && uint_arg a3 && binary_arg a4
    then
      let c := Tb_print (int_val a0) (int_val a1) (int_val a2) (int_val a3)
                        (cstr (binary_val a4)) in
      Some (Return (TInt (engine_ret W c)), [EvEngine c])
    else Some (RaiseBadarg, []).
Proof.
  unfold nif_tb_print. run.
  rewrite !int_arg_get, !uint_arg_get, binary_arg_inspect.
  destruct (int_arg a0), (int_arg a1), (uint_arg a2), (uint_arg a3),
    (binary_arg a4); try reflexivity.
  cbn. rewrite null_terminate_eq by (rewrite length_block; lia).
  now rewrite cstr_app_nul.
Qed.

Lemma tb_set_position_eq (a0 a1 : term) :
  tb_set_position 2 [a0; a1] W =
    if int_arg a0 && int_arg a1
    then
      let x := int_val a0 in
      let y := int_val a1 in
      if (x <? 0) || (y <? 0) || (x >? 32767) || (y >? 32767)
      then Some (Return error_badarg, [])
      else set_position_platform x y W
    else Some (Return error_badarg, []).
Proof.
  unfold tb_set_position. run. rewrite !int_arg_get.
  destruct (int_arg a0), (int_arg a1); try reflexivity. cbn.
  destruct (_ || _); [reflexivity|].
  destruct (set_position_platform _ _ W) as [[r tr]|]; reflexivity.
Qed.

(** The Unix arm of the two decoration handlers. *)
Lemma set_position_platform_posix (x y : Z) :
  build W = Posix ->
  let out := ESC :: bytes "[3;" ++ fmt_d y ++ bytes ";" ++ fmt_d x ++ bytes "t" in
  set_position_platform x y W =
    if printf_ret W out <? 0
    then Some (Return (error_string "Failed to set position"), [EvPrintf out])
    else Some (Return ok_set, [EvPrintf out; EvFflush]).
Proof.
  intros HW out. unfold set_position_platform. run. rewrite HW.
  subst out. cbn. destruct (printf_ret W _ <? 0); reflexivity.
Qed.

Lemma set_title_platform_posix (title : list byte) :
  build W = Posix ->
  let out := ESC :: bytes "]0;" ++ cstr title ++ [BEL] in
  set_title_platform title W =
    if printf_ret W out <? 0
    then Some (Return (error_string "Failed to set title"), [EvPrintf out])
    else Some (Return ok_set, [EvPrintf out; EvFflush]).
Proof.
  intros HW out. unfold set_title_platform. run. rewrite HW.
  subst out. cbn. destruct (printf_ret W _ <? 0); reflexivity.
Qed.

End Handlers.

Section GetString.

Lemma is_byte_charcode (b : byte) :
  is_byte (TInt (Z.of_N (Byte.to_N b))) = Some b.
Proof.
  unfold is_byte. pose proof (Byte.to_N_bounded b) as Hb.
  assert ((0 <=? Z.of_N (Byte.to_N b)) && (Z.of_N (Byte.to_N b) <=? 255) = true) as ->.
  { rewrite andb_true_iff, !Z.leb_le. lia. }
  rewrite N2Z.id. apply Byte.of_to_N.
Qed.

(** A Latin-1 list that fits with its terminator is copied whole. *)
Lemma get_string_loop_fit (bs buf : list byte) (n len : nat) :
  (n + length bs < len)%nat -> (len <= length buf)%nat ->
  get_string_loop (charlist bs) buf n len =
    (Z.of_nat (n + length bs) + 1,
     take n buf ++ bs ++ x00 :: drop (S (n + length bs)) buf).
Proof.
  revert buf n. induction bs as [|b bs IH]; intros buf n Hfit Hbuf; cbn [length] in Hfit.
  - cbn. rewrite Nat.add_0_r. now rewrite insert_take_drop by lia.
  - cbn [charlist foldr get_string_loop]. rewrite is_byte_charcode.
    rewrite bool_decide_eq_false_2 by lia.
    fold (charlist bs). rewrite IH by (rewrite ?length_insert; lia).
    cbn [length]. rewrite Nat.add_succ_r. cbn [Nat.add]. f_equal.
    rewrite (take_S_r _ n b) by (apply list_lookup_insert_eq; lia).
    rewrite take_insert_ge by lia. rewrite drop_insert_lt by lia.
    now rewrite <- app_assoc.
Qed.

(** A longer one is cut: the first [len - 1] bytes stay, the last slot
    takes the terminator, and the return code is [-len]. *)
Lemma get_string_loop_truncated (bs buf : list byte) (n len : nat) :
  (n < len)%nat -> (len <= n + length bs)%nat -> (len <= length buf)%nat ->
  get_string_loop (charlist bs) buf n len =
    (- Z.of_nat len,
     take n buf ++ take (len - 1 - n) bs ++ x00 :: drop len buf).
Proof.
  revert buf n. induction bs as [|b bs IH]; intros buf n Hn Hlong Hbuf;
    cbn [length] in Hlong; [lia|].
  cbn [charlist foldr get_string_loop]. rewrite is_byte_charcode.
  fold (charlist bs). destruct (decide (len ≤ S n)%nat) as [Hfull|Hroom].
  - rewrite bool_decide_eq_true_2 by exact Hfull.
    assert (len = S n) as -> by lia.
    rewrite list_insert_insert_eq, insert_take_drop by lia.
    replace (S n - 1 - n)%nat with 0%nat by lia. reflexivity.
  - rewrite bool_decide_eq_false_2 by exact Hroom.
    rewrite IH by (rewrite ?length_insert; lia). f_equal.
    rewrite (take_S_r _ n b) by (apply list_lookup_insert_eq; lia).
    rewrite take_insert_ge by lia. rewrite drop_insert_lt by lia.
    replace (len - 1 - n)%nat with (S (len - 1 - S n)) by lia.
    cbn [take]. now rewrite <- app_assoc.
Qed.

Lemma enif_get_string_fit (bs buf : list byte) (len : nat) :
  (length bs < len)%nat -> (len <= length buf)%nat ->
  enif_get_string (charlist bs) buf len =
    (Z.of_nat (length bs) + 1, bs ++ x00 :: drop (S (length bs)) buf).
Proof.
  intros Hfit Hbuf. unfold enif_get_string.
  rewrite bool_decide_eq_false_2 by lia.
  now rewrite get_string_loop_fit by (cbn; lia).
Qed.

Lemma enif_get_string_truncated (bs buf : list byte) (len : nat) :
  (0 < len)%nat -> (len <= length bs)%nat -> (len <= length buf)%nat ->
  enif_get_string (charlist bs) buf len =
    (- Z.of_nat len, take (len - 1) bs ++ x00 :: drop len buf).
Proof.
  intros Hpos Hlong Hbuf. unfold enif_get_string.
  rewrite bool_decide_eq_false_2 by lia.
  rewrite get_string_loop_truncated by (cbn; lia).
  now rewrite Nat.sub_0_r.
Qed.

End GetString.

Section Title.

Variable W : world.

(** Both arms of the title call look at the buffer as a C string. *)
Lemma set_title_platform_cstr (t1 t2 : list byte) :
  cstr t1 = cstr t2 -> set_title_platform t1 W = set_title_platform t2 W.
Proof.
  intros E. unfold set_title_platform. run.
  destruct (build W); cbn; rewrite E; reflexivity.
Qed.

Lemma set_title_platform_terminated (data rest : list byte) :
  set_title_platform (data ++ x00 :: rest) W = set_title_platform (data ++ [x00]) W.
Proof. apply set_title_platform_cstr. now rewrite !cstr_app_nul. Qed.

Lemma charlist_not_binary (bs : list byte) : enif_is_binary (charlist bs) = false.
Proof. destruct bs; reflexivity. Qed.

Lemma bind_id {A} (m : option (A * trace)) :
  match m with Some (b, t2) => Some (b, t2) | None => None end = m.
Proof. destruct m as [[? ?]|]; reflexivity. Qed.

Lemma tb_set_title_binary (bin : list byte) :
  tb_set_title 1 [TBinary bin] W =
    if bool_decide (TITLE_SIZE <= length bin)%nat
    then Some (Return error_badarg, [])
    else set_title_platform (bin ++ [x00]) W.
Proof.
  unfold tb_set_title. run.
  destruct (decide (TITLE_SIZE <= length bin)%nat) as [Hbig|Hfit].
  - rewrite !bool_decide_eq_true_2 by exact Hbig. reflexivity.
  - rewrite !bool_decide_eq_false_2 by exact Hfit.
    rewrite null_terminate_eq by (rewrite length_block; unfold TITLE_SIZE in *; lia). rewrite !bind_id.
    apply set_title_platform_terminated.
Qed.

Lemma tb_set_title_charlist_fit (bs : list byte) :
  (length bs < TITLE_SIZE)%nat ->
  tb_set_title 1 [charlist bs] W = set_title_platform (bs ++ [x00]) W.
Proof.
  intros Hfit. unfold tb_set_title. run. rewrite charlist_not_binary.
  rewrite enif_get_string_fit by (rewrite ?length_block; lia).
  assert ((Z.of_nat (length bs) + 1 =? 0) = false) as -> by (apply Z.eqb_neq; lia).
  cbn. rewrite !bind_id. apply set_title_platform_terminated.
Qed.

Lemma tb_set_title_charlist_truncated (bs : list byte) :
  (TITLE_SIZE <= length bs)%nat ->
  tb_set_title 1 [charlist bs] W =
    set_title_platform (take (TITLE_SIZE - 1) bs ++ [x00]) W.
Proof.
  intros Hbig. unfold tb_set_title. run. rewrite charlist_not_binary.
  rewrite enif_get_string_truncated
    by (rewrite ?length_block; unfold TITLE_SIZE in *; lia).
  assert ((- Z.of_nat TITLE_SIZE =? 0) = false) as -> by (apply Z.eqb_neq; unfold TITLE_SIZE; lia).
  cbn. rewrite !bind_id. apply set_title_platform_terminated.
Qed.

End Title.

(* ------------------------------------------------------------------ *)
(** ** The window position *)

(** C2.  [tb_set_position] called with two integers of which one is
    negative or above 32767 returns [{error, badarg}] and performs no
    outside call at all: the trace is empty, on either build target.
    (Integers too wide for [int] are outside the range as well and are
    already turned down by [enif_get_int].) *)
Theorem set_position_out_of_range_rejected (W : world) (x y : Z) :
  x < 0 \/ y < 0 \/ x > 32767 \/ y > 32767 ->
  tb_set_position 2 [TInt x; TInt y] W = Some (Return error_badarg, []).
Proof.
  intros Hout. rewrite tb_set_position_eq. cbn [int_arg int_val].
  destruct (fits_int x && fits_int y); [|reflexivity]. cbv zeta.
  assert ((x <? 0) || (y <? 0) || (x >? 32767) || (y >? 32767) = true) as ->.
  { rewrite !orb_true_iff, !Z.ltb_lt, !Z.gtb_gt. lia. }
  reflexivity.
Qed.

Lemma set_position_out_of_range_rejected_witness :
  tb_set_position 2 [TInt 32768; TInt 0] (calm Win32)
    = Some (Return error_badarg, []).
Proof. apply set_position_out_of_range_rejected. lia. Defined.

(** C5, as the code has it.  On the Unix build, for [x] and [y] in
    [0, 32767], [tb_set_position] hands [printf] exactly
    ESC [ 3 ; y ; x t, with [y] before [x] and both in decimal notation.
    The only failure it reports is that of [printf]: when [printf]
    returns a negative value the result is
    [{error, "Failed to set position"}] and nothing is flushed.
    Otherwise standard output is flushed and the result is [{ok, "set"}],
    whatever the terminal does with the sequence and whatever [fflush]
    returns: its value is dropped, so the run is the same in a world
    that differs only in it. *)
Theorem set_position_escape_sequence (W : world) (x y : Z) :
  build W = Posix -> 0 <= x <= 32767 -> 0 <= y <= 32767 ->
  let out := ESC :: bytes "[3;" ++ fmt_d y ++ bytes ";" ++ fmt_d x ++ bytes "t" in
  tb_set_position 2 [TInt x; TInt y] W =
    (if printf_ret W out <? 0
     then Some (Return (error_string "Failed to set position"), [EvPrintf out])
     else Some (Return ok_set, [EvPrintf out; EvFflush]))
  /\ (forall e, tb_set_position 2 [TInt x; TInt y] (with_fflush_ret e W)
                = tb_set_position 2 [TInt x; TInt y] W)
  /\ read_d (fmt_d y) = Some y /\ read_d (fmt_d x) = Some x.
Proof.
  intros HW Hx Hy out.
  assert (Hrun : forall W', build W' = Posix ->
            tb_set_position 2 [TInt x; TInt y] W' =
              (if printf_ret W' out <? 0
               then Some (Return (error_string "Failed to set position"),
                          [EvPrintf out])
               else Some (Return ok_set, [EvPrintf out; EvFflush]))).
  { intros W' HW'. rewrite tb_set_position_eq. cbn [int_arg int_val].
    assert (fits_int x && fits_int y = true) as ->.
    { rewrite andb_true_iff, !fits_int_iff. unfold INT_MIN, INT_MAX. lia. }
    cbv zeta.
    assert ((x <? 0) || (y <? 0) || (x >? 32767) || (y >? 32767) = false)
      as ->.
    { rewrite !orb_false_iff, !Z.ltb_ge, !Z.gtb_ltb, !Z.ltb_ge. lia. }
    now apply set_position_platform_posix. }
  split; [now apply Hrun|]. split; [|split; apply read_d_fmt_d].
  intros e. rewrite (Hrun W HW), (Hrun (with_fflush_ret e W) HW). reflexivity.
Qed.

Lemma set_position_escape_sequence_witness :
  tb_set_position 2 [TInt 10; TInt 20] (calm Posix) =
    Some (Return ok_set,
          [EvPrintf (ESC :: bytes "[3;20;10t"); EvFflush])
  /\ tb_set_position 2 [TInt 10; TInt 20] broken_stdout =
    Some (Return (error_string "Failed to set position"),
          [EvPrintf (ESC :: bytes "[3;20;10t")])
  /\ tb_set_position 2 [TInt 10; TInt 20] broken_flush =
    Some (Return ok_set,
          [EvPrintf (ESC :: bytes "[3;20;10t"); EvFflush]).
Proof.
  split; [|split].
  - exact (proj1 (set_position_escape_sequence (calm Posix) 10 20
                    eq_refl ltac:(lia) ltac:(lia))).
  - exact (proj1 (set_position_escape_sequence broken_stdout 10 20
                    eq_refl ltac:(lia) ltac:(lia))).
  - exact (proj1 (set_position_escape_sequence broken_flush 10 20
                    eq_refl ltac:(lia) ltac:(lia))).
Defined.

(** C5 as stated fails on two counts.  A write error is not always
    reported: where [printf] only fills the buffer of standard output and
    [fflush] fails to write it, returning [EOF], the result is
    [{ok, "set"}] all the same.  And the failure that is reported, that
    of [printf], comes as [{error, "Failed to set position"}], which is
    not the term [{error, "write"}]. *)
Lemma set_position_write_error_unreported :
  (0 <= printf_ret broken_flush (ESC :: bytes "[3;20;10t")
   /\ fflush_ret broken_flush = -1)
  /\ tb_set_position 2 [TInt 10; TInt 20] broken_flush =
    Some (Return ok_set,
          [EvPrintf (ESC :: bytes "[3;20;10t"); EvFflush])
  /\ tb_set_position 2 [TInt 10; TInt 20] broken_stdout =
    Some (Return (error_string "Failed to set position"),
          [EvPrintf (ESC :: bytes "[3;20;10t")])
  /\ (error_string "Failed to set position" = error_string "write" -> False).
Proof.
  split; [split; [discriminate | reflexivity]|].
  split; [reflexivity|]. split; [reflexivity | discriminate].
Qed.

(* ------------------------------------------------------------------ *)
(** ** Integer arguments *)

(** C9.  [nif_tb_set_cursor] and [nif_tb_set_cell] put no range on their
    coordinates: every [x] and [y] that fit [int], negative or as large
    as [INT_MAX], reach the engine unchanged; [nif_tb_set_cursor] then
    returns the atom [ok], and [nif_tb_set_cell] (given a character and
    two attributes that fit [unsigned int]) the engine's status. *)
Theorem cursor_and_cell_coordinates_unchecked
    (W : world) (x y ch fg bg : Z) :
  INT_MIN <= x <= INT_MAX -> INT_MIN <= y <= INT_MAX ->
  0 <= ch <= UINT_MAX -> 0 <= fg <= UINT_MAX -> 0 <= bg <= UINT_MAX ->
  nif_tb_set_cursor 2 [TInt x; TInt y] W =
    Some (Return (TAtom "ok"), [EvEngine (Tb_set_cursor x y)])
  /\ nif_tb_set_cell 5 [TInt x; TInt y; TInt ch; TInt fg; TInt bg] W =
    Some (Return (TInt (engine_ret W (Tb_set_cell x y ch fg bg))),
          [EvEngine (Tb_set_cell x y ch fg bg)]).
Proof.
  intros Hx Hy Hch Hfg Hbg.
  apply fits_int_iff in Hx, Hy. apply fits_uint_iff in Hch, Hfg, Hbg.
  rewrite nif_tb_set_cursor_eq, nif_tb_set_cell_eq. cbn [int_arg uint_arg int_val].
  rewrite Hx, Hy, Hch, Hfg, Hbg. split; reflexivity.
Qed.

Lemma cursor_and_cell_coordinates_unchecked_witness :
  nif_tb_set_cursor 2 [TInt (-1); TInt 2147483647] (calm Posix) =
    Some (Return (TAtom "ok"), [EvEngine (Tb_set_cursor (-1) 2147483647)])
  /\ nif_tb_set_cell 5 [TInt (-1); TInt 2147483647; TInt 65; TInt 16777215;
                        TInt 0] (calm Posix) =
    Some (Return (TInt 0),
          [EvEngine (Tb_set_cell (-1) 2147483647 65 16777215 0)]).
Proof.
  apply (cursor_and_cell_coordinates_unchecked
           (calm Posix) (-1) 2147483647 65 16777215 0);
    unfold INT_MIN, INT_MAX, UINT_MAX; lia.
Defined.

Lemma int_arg_iff (t : term) :
  int_arg t = true <-> exists z, t = TInt z /\ INT_MIN <= z <= INT_MAX.
Proof.
  split.
  - destruct t; try discriminate. cbn. intros H%fits_int_iff. eauto.
  - intros (z & -> & H). now apply fits_int_iff.
Qed.

Lemma uint_arg_iff (t : term) :
  uint_arg t = true <-> exists z, t = TInt z /\ 0 <= z <= UINT_MAX.
Proof.
  split.
  - destruct t; try discriminate. cbn. intros H%fits_uint_iff. eauto.
  - intros (z & -> & H). now apply fits_uint_iff.
Qed.

(** C7.  An integer argument passes validation exactly when it is an
    integer term whose value lies in the native type the handler asks
    for ([int] through [enif_get_int], [unsigned int] through
    [enif_get_uint]), and the native value is then that same number.
    Handler by handler: [nif_tb_set_cursor], [nif_tb_set_cell],
    [nif_tb_set_input_mode], [nif_tb_set_output_mode] and [nif_tb_print]
    go on to the engine, with the converted values, exactly when every
    integer argument is representable (and, for [nif_tb_print], the text
    is a binary), and raise [badarg] without any effect otherwise;
    [tb_set_position] returns [{error, badarg}] without any effect when
    one of its arguments is not representable. *)
Theorem integer_arguments_validated (W : world) (a0 a1 a2 a3 a4 : term) :
  (forall z, enif_get_int a0 = Some z <->
             a0 = TInt z /\ INT_MIN <= z <= INT_MAX)
  /\ (forall z, enif_get_uint a0 = Some z <->
                a0 = TInt z /\ 0 <= z <= UINT_MAX)
  /\ (forall t, int_arg t = true <->
                exists z, t = TInt z /\ INT_MIN <= z <= INT_MAX)
  /\ (forall t, uint_arg t = true <->
                exists z, t = TInt z /\ 0 <= z <= UINT_MAX)
  /\ nif_tb_set_cursor 2 [a0; a1] W =
       (if int_arg a0 && int_arg a1
        then Some (Return (TAtom "ok"),
                   [EvEngine (Tb_set_cursor (int_val a0) (int_val a1))])
        else Some (RaiseBadarg, []))
  /\ nif_tb_set_cell 5 [a0; a1; a2; a3; a4] W =
       (if int_arg a0 && int_arg a1 && uint_arg a2 && uint_arg a3 && uint_arg a4
        then
          let c := Tb_set_cell (int_val a0) (int_val a1)
                               (int_val a2) (int_val a3) (int_val a4) in
          Some (Return (TInt (engine_ret W c)), [EvEngine c])
        else Some (RaiseBadarg, []))
  /\ nif_tb_set_input_mode 1 [a0] W =
       (if int_arg a0
        then let c := Tb_set_input_mode (int_val a0) in
             Some (Return (TInt (engine_ret W c)), [EvEngine c])
        else Some (RaiseBadarg, []))
  /\ nif_tb_set_output_mode 1 [a0] W =
       (if int_arg a0
        then let c := Tb_set_output_mode (int_val a0) in
             Some (Return (TInt (engine_ret W c)), [EvEngine c])
        else Some (RaiseBadarg, []))
  /\ nif_tb_print 5 [a0; a1; a2; a3; a4] W =
       (if int_arg a0 && int_arg a1 && uint_arg a2 && uint_arg a3
           && binary_arg a4
        then
          let c := Tb_print (int_val a0) (int_val a1) (int_val a2)
                            (int_val a3) (cstr (binary_val a4)) in
          Some (Return (TInt (engine_ret W c)), [EvEngine c])
        else Some (RaiseBadarg, []))
  /\ (if int_arg a0 && int_arg a1 then True
      else tb_set_position 2 [a0; a1] W = Some (Return error_badarg, [])).
Proof.
  split; [intros z; apply enif_get_int_Some|].
  split; [intros z; apply enif_get_uint_Some|].
  split; [exact int_arg_iff|].
  split; [exact uint_arg_iff|].
  split; [apply nif_tb_set_cursor_eq|].
  split; [apply nif_tb_set_cell_eq|].
  split; [apply nif_tb_set_input_mode_eq|].
  split; [apply nif_tb_set_output_mode_eq|].
  split; [apply nif_tb_print_eq|].
  rewrite tb_set_position_eq. now destruct (int_arg a0 && int_arg a1).
Qed.

(* ------------------------------------------------------------------ *)
(** ** Marshalling a payload *)



Section Outcomes.

Variable W : world.

Lemma enif_make_string_not_atom (msg a : string) :
  enif_make_string msg <> TAtom a.
Proof.
  unfold enif_make_string. destruct (list_byte_of_string msg); discriminate.
Qed.

Lemma charlist_inj (bs1 bs2 : list byte) :
  charlist bs1 = charlist bs2 -> bs1 = bs2.
Proof.
  revert bs2. induction bs1 as [|b1 bs1 IH]; intros [|b2 bs2] E; cbn in E.
  all: try discriminate E.
  { reflexivity. }
  injection E as Eb Etl. f_equal; [|now apply IH].
  apply N2Z.inj in Eb.
  pose proof (Byte.of_to_N b1) as H1. rewrite Eb, Byte.of_to_N in H1.
  congruence.
Qed.

Lemma enif_make_string_inj (m1 m2 : string) :
  enif_make_string m1 = enif_make_string m2 -> m1 = m2.
Proof.
  intros E%charlist_inj.
  rewrite <- (string_of_list_byte_of_string m1),
          <- (string_of_list_byte_of_string m2).
  now rewrite E.
Qed.

(** The three classes never share a term. *)
Lemma term_of_outcome_inj (o1 o2 : outcome) :
  term_of_outcome o1 = term_of_outcome o2 -> o1 = o2.
Proof.
  destruct o1 as [|m1|], o2 as [|m2|]; cbn; intros E;
    try reflexivity; try discriminate E.
  - injection E as E. symmetry in E. now apply enif_make_string_not_atom in E.
  - injection E as E. now apply enif_make_string_not_atom in E.
  - injection E as E. f_equal. now apply enif_make_string_inj.
Qed.

Lemma not_invalid_ok (t : term) :
  (exists o, t = term_of_outcome o /\ o <> InvalidArgument) ->
  ~ invalid_argument (Return t).
Proof.
  intros (o & -> & Ho) [E|E]; [discriminate|].
  injection E as E. apply Ho. now apply term_of_outcome_inj.
Qed.

(** The platform arm of the title always makes its call, and ends in
    [{ok, "set"}] or in an error with a message. *)
Lemma set_title_platform_cases (title : list byte) :
  exists o rest,
    set_title_platform title W =
      Some (Return (term_of_outcome o),
            match build W with
            | Posix => EvPrintf (ESC :: bytes "]0;" ++ cstr title ++ [BEL])
            | Win32 => EvSetConsoleTitle (cstr title)
            end :: rest)
    /\ (o = TitleOrPositionSet
        \/ o = PlatformCallFailed "Failed to set title"
        \/ o = PlatformCallFailed "SetConsoleTitle failed").
Proof.
  unfold set_title_platform. run. destruct (build W); cbn.
  - destruct (printf_ret W _ <? 0).
    + exists (PlatformCallFailed "Failed to set title"), []. auto.
    + exists TitleOrPositionSet, [EvFflush]. auto.
  - destruct (SetConsoleTitle_ret W _).
    + exists TitleOrPositionSet, []. auto.
    + exists (PlatformCallFailed "SetConsoleTitle failed"), []. auto.
Qed.

Lemma set_position_platform_cases (x y : Z) :
  exists o rest,
    set_position_platform x y W =
      Some (Return (term_of_outcome o),
            match build W with
            | Posix => EvPrintf (ESC :: bytes "[3;" ++ fmt_d y ++ bytes ";"
                                     ++ fmt_d x ++ bytes "t")
            | Win32 => EvGetConsoleWindow
            end :: rest)
    /\ (o = TitleOrPositionSet
        \/ o = PlatformCallFailed "Failed to set position"
        \/ o = PlatformCallFailed "GetConsoleWindow failed"
        \/ o = PlatformCallFailed "GetWindowRect failed"
        \/ o = PlatformCallFailed "MoveWindow failed").
Proof.
  unfold set_position_platform. run. destruct (build W); cbn.
  - destruct (printf_ret W _ <? 0).
    + exists (PlatformCallFailed "Failed to set position"), []. auto.
    + exists TitleOrPositionSet, [EvFflush]. auto.
  - destruct (GetConsoleWindow_ret W =? 0).
    + exists (PlatformCallFailed "GetConsoleWindow failed"), []. auto.
    + destruct (GetWindowRect_ret W _) as [rect|]; cbn.
      * destruct (MoveWindow_ret W _ _ _ _ _);
          [exists TitleOrPositionSet | exists (PlatformCallFailed "MoveWindow failed")];
          eexists; (split; [reflexivity | auto 6]).
      * exists (PlatformCallFailed "GetWindowRect failed"). eexists.
        split; [reflexivity | auto 6].
Qed.

(** Whatever its argument, [tb_set_title] either turns it down before
    doing anything or goes to the platform arm with some title. *)
Lemma tb_set_title_any (a0 : term) :
  tb_set_title 1 [a0] W = Some (Return error_badarg, [])
  \/ exists title, tb_set_title 1 [a0] W = set_title_platform title W.
Proof.
  unfold tb_set_title. run.
  destruct (enif_is_binary a0).
  - destruct (enif_inspect_binary a0) as [bin|]; [|now left].
    destruct (bool_decide _); [now left|]. right. eexists.
    rewrite !bind_id. reflexivity.
  - destruct (enif_get_string a0 _ _) as [rc title'].
    destruct (rc =? 0); cbn; [now left|]. right. eexists.
    rewrite !bind_id. reflexivity.
Qed.

End Outcomes.

(* ------------------------------------------------------------------ *)
(** ** The window title *)

(** C1.  What [tb_set_title] does with a payload of 256 bytes or more.
    Given as a binary it is turned down with [{error, badarg}] before any
    outside call.  Given as a Latin-1 list it is not: [enif_get_string]
    reports the truncation by a negative return value, the handler only
    tests that value against zero, and so it goes on to the platform arm
    with the first 255 bytes as title; the platform call is made and the
    result is never [{error, badarg}]. *)
Theorem set_title_oversized_payload (W : world) (bs : list byte) :
  (256 <= length bs)%nat ->
  tb_set_title 1 [TBinary bs] W = Some (Return error_badarg, [])
  /\ tb_set_title 1 [charlist bs] W
       = set_title_platform (take 255 bs ++ [x00]) W
  /\ exists o rest,
       tb_set_title 1 [charlist bs] W =
         Some (Return (term_of_outcome o),
               match build W with
               | Posix =>
                   EvPrintf (ESC :: bytes "]0;" ++ cstr (take 255 bs) ++ [BEL])
               | Win32 => EvSetConsoleTitle (cstr (take 255 bs))
               end :: rest)
       /\ o <> InvalidArgument.
Proof.
  intros Hbig. split; [|split].
  - rewrite tb_set_title_binary.
    now rewrite bool_decide_eq_true_2 by (unfold TITLE_SIZE; lia).
  - now rewrite tb_set_title_charlist_truncated by (unfold TITLE_SIZE; lia).
  - rewrite tb_set_title_charlist_truncated by (unfold TITLE_SIZE; lia).
    change (TITLE_SIZE - 1)%nat with 255%nat.
    destruct (set_title_platform_cases W (take 255 bs ++ [x00]))
      as (o & rest & E & Ho).
    exists o, rest. rewrite E. split.
    + do 3 f_equal. destruct (build W); now rewrite cstr_app_nul.
    + destruct Ho as [->|[->| ->]]; discriminate.
Qed.

Lemma set_title_oversized_payload_witness :
  tb_set_title 1 [TBinary (repeat x61 256)] (calm Posix)
    = Some (Return error_badarg, [])
  /\ tb_set_title 1 [charlist (repeat x61 256)] (calm Posix)
    = Some (Return ok_set,
            [EvPrintf (ESC :: bytes "]0;" ++ repeat x61 255 ++ [BEL]);
             EvFflush]).
Proof.
  destruct (set_title_oversized_payload (calm Posix) (repeat x61 256))
    as (Hbin & Hlist & _).
  - rewrite repeat_length. lia.
  - split; [exact Hbin|]. rewrite Hlist. vm_compute. reflexivity.
Defined.

(** C3, as the code has it.  On the Unix build, a payload of at most 255
    bytes, given as a binary or as a Latin-1 list, makes [tb_set_title]
    hand [printf] exactly ESC ] 0 ; title BEL, where the title is the
    payload up to, and without, its first zero byte: all of the payload
    when no byte of it is zero.  The only failure it reports is that of
    [printf]: when [printf] returns a negative value the result is
    [{error, "Failed to set title"}] and nothing is flushed.  Otherwise
    standard output is flushed and the result is [{ok, "set"}], whatever
    [fflush] returns: its value is dropped, so the run is the same in a
    world that differs only in it. *)
Theorem set_title_escape_sequence
    (W : world) (payload : list byte) (t : term) :
  build W = Posix -> (length payload <= 255)%nat ->
  t = TBinary payload \/ t = charlist payload ->
  let out := ESC :: bytes "]0;" ++ cstr payload ++ [BEL] in
  tb_set_title 1 [t] W =
    (if printf_ret W out <? 0
     then Some (Return (error_string "Failed to set title"), [EvPrintf out])
     else Some (Return ok_set, [EvPrintf out; EvFflush]))
  /\ (forall e, tb_set_title 1 [t] (with_fflush_ret e W) = tb_set_title 1 [t] W)
  /\ (x00 ∉ payload -> cstr payload = payload).
Proof.
  intros HW Hlen Ht out.
  assert (Hrun : forall W', build W' = Posix ->
            tb_set_title 1 [t] W' =
              (if printf_ret W' out <? 0
               then Some (Return (error_string "Failed to set title"),
                          [EvPrintf out])
               else Some (Return ok_set, [EvPrintf out; EvFflush]))).
  { intros W' HW'.
    assert (tb_set_title 1 [t] W' = set_title_platform (payload ++ [x00]) W')
      as ->.
    { destruct Ht as [-> | ->].
      - rewrite tb_set_title_binary.
        now rewrite bool_decide_eq_false_2 by (unfold TITLE_SIZE; lia).
      - apply tb_set_title_charlist_fit. unfold TITLE_SIZE. lia. }
    rewrite set_title_platform_posix by exact HW'.
    rewrite cstr_app_nul. reflexivity. }
  split; [now apply Hrun|]. split; [|apply cstr_no_nul].
  intros e. rewrite (Hrun W HW), (Hrun (with_fflush_ret e W) HW). reflexivity.
Qed.

Lemma set_title_escape_sequence_witness :
  tb_set_title 1 [TBinary (bytes "raxol")] (calm Posix) =
    Some (Return ok_set,
          [EvPrintf (ESC :: bytes "]0;raxol" ++ [BEL]); EvFflush])
  /\ tb_set_title 1 [charlist (bytes "raxol")] broken_stdout =
    Some (Return (error_string "Failed to set title"),
          [EvPrintf (ESC :: bytes "]0;raxol" ++ [BEL])])
  /\ tb_set_title 1 [TBinary (bytes "raxol")] broken_flush =
    Some (Return ok_set,
          [EvPrintf (ESC :: bytes "]0;raxol" ++ [BEL]); EvFflush]).
Proof.
  split; [|split].
  - exact (proj1 (set_title_escape_sequence (calm Posix) (bytes "raxol") _
                    eq_refl ltac:(cbn; lia) (or_introl eq_refl))).
  - exact (proj1 (set_title_escape_sequence broken_stdout (bytes "raxol") _
                    eq_refl ltac:(cbn; lia) (or_intror eq_refl))).
  - exact (proj1 (set_title_escape_sequence broken_flush (bytes "raxol") _
                    eq_refl ltac:(cbn; lia) (or_introl eq_refl))).
Defined.

(** C3 as stated fails on three counts.  On a payload with a zero byte in
    it: of the three bytes A, NUL, B only A is transmitted.  On a write
    error that shows in the flush: where [printf] only fills the buffer
    of standard output and [fflush] fails to write it, returning [EOF],
    the result is [{ok, "set"}] all the same.  And in the failure that is
    reported, that of [printf]: it comes as
    [{error, "Failed to set title"}], which is not the term
    [{error, "write"}]. *)
Lemma set_title_zero_byte_cuts_title :
  (tb_set_title 1 [TBinary [x41; x00; x42]] (calm Posix) =
     Some (Return ok_set, [EvPrintf (ESC :: bytes "]0;A" ++ [BEL]); EvFflush])
   /\ (ESC :: bytes "]0;A" ++ [BEL] =
       ESC :: bytes "]0;" ++ [x41; x00; x42] ++ [BEL] -> False))
  /\ (0 <= printf_ret broken_flush (ESC :: bytes "]0;raxol" ++ [BEL])
      /\ fflush_ret broken_flush = -1
      /\ tb_set_title 1 [TBinary (bytes "raxol")] broken_flush =
         Some (Return ok_set,
               [EvPrintf (ESC :: bytes "]0;raxol" ++ [BEL]); EvFflush]))
  /\ (tb_set_title 1 [TBinary (bytes "raxol")] broken_stdout =
        Some (Return (error_string "Failed to set title"),
              [EvPrintf (ESC :: bytes "]0;raxol" ++ [BEL])])
      /\ (error_string "Failed to set title" = error_string "write" -> False)).
Proof.
  split; [split; [reflexivity | discriminate]|].
  split; [split; [discriminate | split; reflexivity]|].
  split; [reflexivity | discriminate].
Qed.

(* ------------------------------------------------------------------ *)
(** ** Validation comes before every effect *)

Section Validation.

Variable W : world.

Lemma tb_set_title_quiet (a0 : term) (r : nif_result) (tr : trace) :
  tb_set_title 1 [a0] W = Some (r, tr) -> invalid_argument r -> tr = [].
Proof.
  intros E Hbad. destruct (tb_set_title_any W a0) as [E' | [title E']];
    rewrite E' in E.
  - now injection E as _ <-.
  - destruct (set_title_platform_cases W title) as (o & rest & Ep & Ho).
    rewrite Ep in E. injection E as <- <-. exfalso.
    revert Hbad. apply not_invalid_ok. exists o. split; [reflexivity|].
    destruct Ho as [->|[->| ->]]; discriminate.
Qed.

Lemma tb_set_position_quiet (a0 a1 : term) (r : nif_result) (tr : trace) :
  tb_set_position 2 [a0; a1] W = Some (r, tr) -> invalid_argument r -> tr = [].
Proof.
  rewrite tb_set_position_eq. intros E Hbad.
  destruct (int_arg a0 && int_arg a1); [|now injection E as _ <-].
  cbv zeta in E. destruct (_ || _); [now injection E as _ <-|].
  destruct (set_position_platform_cases W (int_val a0) (int_val a1))
    as (o & rest & Ep & Ho).
  rewrite Ep in E. injection E as <- <-. exfalso.
  revert Hbad. apply not_invalid_ok. exists o. split; [reflexivity|].
  destruct Ho as [->|[->|[->|[->| ->]]]]; discriminate.
Qed.

(** X1.  A handler of the table, called with as many arguments as the
    table says, that answers with an invalid argument (the [badarg]
    exception or [{error, badarg}]) has done nothing else: no engine
    call, no output, no console call. *)
Theorem invalid_argument_without_effect
    (e : ErlNifFunc) (argv : list term) (r : nif_result) (tr : trace) :
  In e nif_funcs -> length argv = arity e ->
  fptr e (Z.of_nat (length argv)) argv W = Some (r, tr) ->
  invalid_argument r -> tr = [].
Proof.
  intros He Hlen Hrun Hbad.
  assert (Hint : forall z, ~ invalid_argument (Return (TInt z))).
  { intros z [E|E]; discriminate E. }
  assert (Hok : ~ invalid_argument (Return (TAtom "ok"))).
  { intros [E|E]; discriminate E. }
  cbn in He.
  repeat (destruct He as [<- | He]); try contradiction; cbn in Hlen, Hrun;
    repeat (destruct argv as [|? argv]; try discriminate Hlen);
    cbn [length Z.of_nat Pos.of_succ_nat Pos.succ] in Hrun.
  - injection Hrun as <- <-. now apply Hint in Hbad.
  - injection Hrun as <- <-. now apply Hok in Hbad.
  - injection Hrun as <- <-. now apply Hint in Hbad.
  - injection Hrun as <- <-. now apply Hint in Hbad.
  - injection Hrun as <- <-. now apply Hok in Hbad.
  - injection Hrun as <- <-. now apply Hok in Hbad.
  - rewrite nif_tb_set_cursor_eq in Hrun. destruct (_ && _);
      injection Hrun as <- <-; [now apply Hok in Hbad | reflexivity].
  - injection Hrun as <- <-. now apply Hint in Hbad.
  - rewrite nif_tb_set_cell_eq in Hrun. destruct (_ && _);
      injection Hrun as <- <-; [now apply Hint in Hbad | reflexivity].
  - rewrite nif_tb_set_input_mode_eq in Hrun. destruct (int_arg _);
      injection Hrun as <- <-; [now apply Hint in Hbad | reflexivity].
  - rewrite nif_tb_set_output_mode_eq in Hrun. destruct (int_arg _);
      injection Hrun as <- <-; [now apply Hint in Hbad | reflexivity].
  - rewrite nif_tb_print_eq in Hrun. destruct (_ && _);
      injection Hrun as <- <-; [now apply Hint in Hbad | reflexivity].
  - eapply tb_set_title_quiet; eassumption.
  - eapply tb_set_position_quiet; eassumption.
Qed.

(** X2.  The results of the two decoration handlers fall in three
    classes, each with its own shape of term: [{error, badarg}] with
    nothing done, [{error, Message}] after a platform call that failed,
    with one of six fixed messages, [{ok, "set"}] after the platform
    calls. *)
Theorem decoration_outcomes
    (argv : list term) (r : nif_result) (tr : trace) :
  tb_set_title (Z.of_nat (length argv)) argv W = Some (r, tr)
  \/ tb_set_position (Z.of_nat (length argv)) argv W = Some (r, tr) ->
  exists o,
    r = Return (term_of_outcome o)
    /\ (o = InvalidArgument <-> tr = [])
    /\ (forall msg, o = PlatformCallFailed msg ->
          In msg ["Failed to set title"; "SetConsoleTitle failed";
                  "Failed to set position"; "GetConsoleWindow failed";
                  "GetWindowRect failed"; "MoveWindow failed"]%string).
Proof.
  assert (Hbad : exists o, Return error_badarg = Return (term_of_outcome o)
            /\ (o = InvalidArgument <-> @nil event = [])
            /\ (forall msg, o = PlatformCallFailed msg ->
                  In msg ["Failed to set title"; "SetConsoleTitle failed";
                          "Failed to set position"; "GetConsoleWindow failed";
                          "GetWindowRect failed"; "MoveWindow failed"]%string)).
  { exists InvalidArgument. repeat split; discriminate. }
  intros [E | E].
  - destruct argv as [|a0 [|a1 rest]].
    + cbn in E. injection E as <- <-. exact Hbad.
    + change (Z.of_nat (length [a0])) with 1 in E.
      destruct (tb_set_title_any W a0) as [E' | [title E']]; rewrite E' in E.
      * injection E as <- <-. exact Hbad.
      * destruct (set_title_platform_cases W title) as (o & rest & Ep & Ho).
        rewrite Ep in E. injection E as <- <-. exists o.
        split; [reflexivity|]. split.
        { split; [|discriminate]. destruct Ho as [->|[->| ->]]; discriminate. }
        intros msg ->. destruct Ho as [Ho|[Ho|Ho]]; try discriminate Ho;
          injection Ho as ->; cbn; auto.
    + unfold tb_set_title in E. cbn [length] in E.
      replace (Z.of_nat (S (S (length rest))) =? 1) with false in E
        by (symmetry; apply Z.eqb_neq; lia).
      injection E as <- <-. exact Hbad.
  - destruct argv as [|a0 [|a1 [|a2 rest]]].
    + cbn in E. injection E as <- <-. exact Hbad.
    + cbn in E. injection E as <- <-. exact Hbad.
    + change (Z.of_nat (length [a0; a1])) with 2 in E.
      rewrite tb_set_position_eq in E.
      destruct (int_arg a0 && int_arg a1);
        [|injection E as <- <-; exact Hbad].
      cbv zeta in E. destruct (_ || _); [injection E as <- <-; exact Hbad|].
      destruct (set_position_platform_cases W (int_val a0) (int_val a1))
        as (o & rest & Ep & Ho).
      rewrite Ep in E. injection E as <- <-. exists o.
      split; [reflexivity|]. split.
      { split; [|discriminate].
        destruct Ho as [->|[->|[->|[->| ->]]]]; discriminate. }
      intros msg ->. destruct Ho as [Ho|[Ho|[Ho|[Ho|Ho]]]];
        try discriminate Ho; injection Ho as ->; cbn; auto 8.
    + unfold tb_set_position in E. cbn [length] in E.
      replace (Z.of_nat (S (S (S (length rest)))) =? 2) with false in E
        by (symmetry; apply Z.eqb_neq; lia).
      injection E as <- <-. exact Hbad.
Qed.

End Validation.

(** C4, at the input where the code leaves it.  A Latin-1 list of 256
    bytes is an oversized title, yet the call [tb_set_title(List)] goes
    through the table to [tb_set_title], which answers with something
    other than an invalid argument and has made an outside call by then.
    (Every other validation failure is covered by
    [invalid_argument_without_effect].) *)
Theorem oversized_title_string_has_effect (W : world) :
  exists m r tr,
    call_nif "tb_set_title" [charlist (repeat x61 256)] = Some m
    /\ m W = Some (r, tr)
    /\ (invalid_argument r -> False)
    /\ (tr = [] -> False).
Proof.
  destruct (set_title_platform_cases W (take 255 (repeat x61 256) ++ [x00]))
    as (o & rest & Ep & Ho).
  exists (tb_set_title 1 [charlist (repeat x61 256)]),
    (Return (term_of_outcome o)).
  eexists. split; [reflexivity|]. split.
  - rewrite tb_set_title_charlist_truncated
      by (rewrite repeat_length; unfold TITLE_SIZE; lia).
    exact Ep.
  - split; [|discriminate].
    apply not_invalid_ok. exists o. split; [reflexivity|].
    destruct Ho as [->|[->| ->]]; discriminate.
Qed.

(** C10, at the same input.  The oversized Latin-1 list counts as a
    validation failure, but the result of [tb_set_title] on it
    is of the success class or of the platform-failure class, and never
    the term [{error, badarg}].  (For every input the three classes and
    their shapes are as [decoration_outcomes] says.) *)
Theorem oversized_title_string_outcome (W : world) :
  exists o tr,
    tb_set_title 1 [charlist (repeat x61 256)] W
      = Some (Return (term_of_outcome o), tr)
    /\ (o = TitleOrPositionSet
        \/ o = PlatformCallFailed "Failed to set title"
        \/ o = PlatformCallFailed "SetConsoleTitle failed")
    /\ (term_of_outcome o = error_badarg -> False).
Proof.
  destruct (set_title_platform_cases W (take 255 (repeat x61 256) ++ [x00]))
    as (o & rest & Ep & Ho).
  exists o. eexists. split; [|split; [exact Ho|]].
  - rewrite tb_set_title_charlist_truncated
      by (rewrite repeat_length; unfold TITLE_SIZE; lia).
    exact Ep.
  - intros E. apply (term_of_outcome_inj o InvalidArgument) in E.
    destruct Ho as [->|[->| ->]]; discriminate.
Qed.

(* ------------------------------------------------------------------ *)
(** ** The number of arguments *)

Lemma lookup_nif_arity (e : ErlNifFunc) (n : nat) :
  In e nif_funcs ->
  lookup_nif (name e) n = if Nat.eqb (arity e) n then Some e else None.
Proof.
  intros He. cbn in He.
  repeat (destruct He as [<- | He]); try contradiction;
    unfold lookup_nif; cbn;
    repeat (destruct n as [|n]; try reflexivity).
Qed.




(* ------------------------------------------------------------------ *)
(** ** The table as a whole *)

(** A concrete run for X1: a cursor call whose first argument is an atom
    raises [badarg], and its trace is empty. *)
Lemma invalid_argument_without_effect_witness :
  nif_tb_set_cursor 2 [TAtom "x"; TInt 1] (calm Posix) = Some (RaiseBadarg, [])
  /\ @nil event = [].
Proof.
  split; [reflexivity|].
  apply (invalid_argument_without_effect (calm Posix)
           (mkFunc "tb_set_cursor" 2 nif_tb_set_cursor)
           [TAtom "x"; TInt 1] RaiseBadarg []).
  - cbn. tauto.
  - reflexivity.
  - reflexivity.
  - now left.
Defined.

(** A concrete run for X2: a position outside the range is of the
    invalid-argument class and leaves no trace. *)
Lemma decoration_outcomes_witness :
  exists o,
    Return error_badarg = Return (term_of_outcome o)
    /\ (o = InvalidArgument <-> @nil event = [])
    /\ (forall msg, o = PlatformCallFailed msg ->
          In msg ["Failed to set title"; "SetConsoleTitle failed";
                  "Failed to set position"; "GetConsoleWindow failed";
                  "GetWindowRect failed"; "MoveWindow failed"]%string).
Proof.
  apply (decoration_outcomes (calm Posix) [TInt 40000; TInt 0]).
  right. reflexivity.
Defined.

Section WholeTable.

Variable W : world.




End WholeTable.


Section EngineHandlers.

Variable W : world.

(** X4.  Each of the twelve engine handlers, called with its arity,
    either raises [badarg] having done nothing, or makes exactly one
    outside call: the termbox2 function the entry is named after.  Its
    answer is then the integer that function returned, passed on as it
    is; for [tb_shutdown], [tb_clear], [tb_present] and [tb_set_cursor]
    the answer is the atom [ok] whatever was returned. *)
Theorem engine_handlers_forward_one_call
    (e : ErlNifFunc) (argv : list term) (r : nif_result) (tr : trace) :
  In e nif_funcs -> decoration e = false -> length argv = arity e ->
  fptr e (Z.of_nat (length argv)) argv W = Some (r, tr) ->
  (r = RaiseBadarg /\ tr = [])
  \/ exists c,
       tr = [EvEngine c]
       /\ engine_call_name c = name e
       /\ r = Return (if discards_status c then TAtom "ok"
                      else TInt (engine_ret W c)).
Proof.
  intros He Hdec Hlen Hrun. cbn in He.
  repeat (destruct He as [<- | He]); try contradiction;
    try discriminate Hdec; cbn in Hlen, Hrun;
    repeat (destruct argv as [|? argv]; try discriminate Hlen);
    cbn [length Z.of_nat Pos.of_succ_nat Pos.succ] in Hrun.
  - injection Hrun as <- <-. right. exists Tb_init. auto.
  - injection Hrun as <- <-. right. exists Tb_shutdown. auto.
  - injection Hrun as <- <-. right. exists Tb_width. auto.
  - injection Hrun as <- <-. right. exists Tb_height. auto.
  - injection Hrun as <- <-. right. exists Tb_clear. auto.
  - injection Hrun as <- <-. right. exists Tb_present. auto.
  - rewrite nif_tb_set_cursor_eq in Hrun. destruct (_ && _);
      injection Hrun as <- <-; [right | now left].
    eexists (Tb_set_cursor _ _). auto.
  - injection Hrun as <- <-. right. exists Tb_hide_cursor. auto.
  - rewrite nif_tb_set_cell_eq in Hrun. destruct (_ && _);
      injection Hrun as <- <-; [right | now left].
    eexists (Tb_set_cell _ _ _ _ _). auto.
  - rewrite nif_tb_set_input_mode_eq in Hrun. destruct (int_arg _);
      injection Hrun as <- <-; [right | now left].
    eexists (Tb_set_input_mode _). auto.
  - rewrite nif_tb_set_output_mode_eq in Hrun. destruct (int_arg _);
      injection Hrun as <- <-; [right | now left].
    eexists (Tb_set_output_mode _). auto.
  - rewrite nif_tb_print_eq in Hrun. destruct (_ && _);
      injection Hrun as <- <-; [right | now left].
    eexists (Tb_print _ _ _ _ _). auto.
Qed.

End EngineHandlers.

Lemma engine_handlers_forward_one_call_witness :
  nif_tb_clear 0 [] (calm Posix)
    = Some (Return (TAtom "ok"), [EvEngine Tb_clear])
  /\ ((Return (TAtom "ok") = RaiseBadarg /\ [EvEngine Tb_clear] = [])
      \/ exists c,
           [EvEngine Tb_clear] = [EvEngine c]
           /\ engine_call_name c = "tb_clear"%string
           /\ Return (TAtom "ok")
              = Return (if discards_status c then TAtom "ok"
                        else TInt (engine_ret (calm Posix) c))).
Proof.
  split; [reflexivity|].
  apply (engine_handlers_forward_one_call (calm Posix)
           (mkFunc "tb_clear" 0 nif_tb_clear) []).
  - cbn. tauto.
  - reflexivity.
  - reflexivity.
  - reflexivity.
Defined.

Section Arms.

Variable W : world.

Lemma set_title_platform_arm (title : list byte) (r : nif_result) (tr : trace) :
  set_title_platform title W = Some (r, tr) ->
  forallb (arm_event (build W)) tr = true.
Proof.
  unfold set_title_platform. run. destruct (build W); cbn.
  - destruct (printf_ret W _ <? 0); intros [= <- <-]; reflexivity.
  - destruct (SetConsoleTitle_ret W _); intros [= <- <-]; reflexivity.
Qed.

Lemma set_position_platform_arm (x y : Z) (r : nif_result) (tr : trace) :
  set_position_platform x y W = Some (r, tr) ->
  forallb (arm_event (build W)) tr = true.
Proof.
  unfold set_position_platform. run. destruct (build W); cbn.
  - destruct (printf_ret W _ <? 0); intros [= <- <-]; reflexivity.
  - destruct (GetConsoleWindow_ret W =? 0); [intros [= <- <-]; reflexivity|].
    destruct (GetWindowRect_ret W _) as [rect|]; cbn;
      [|intros [= <- <-]; reflexivity].
    destruct (MoveWindow_ret W _ _ _ _ _); intros [= <- <-]; reflexivity.
Qed.

(** X5.  The two decoration handlers never call the engine, and every
    outside call they make belongs to the arm of [#ifdef _WIN32] the
    file was built with: [printf] and [fflush] on the Unix build, the
    console API on the Windows build, never one of the other arm. *)
Theorem decoration_stays_on_its_arm
    (argv : list term) (r : nif_result) (tr : trace) :
  tb_set_title (Z.of_nat (length argv)) argv W = Some (r, tr)
  \/ tb_set_position (Z.of_nat (length argv)) argv W = Some (r, tr) ->
  forallb (arm_event (build W)) tr = true
  /\ forall c, ~ In (EvEngine c) tr.
Proof.
  intros Hrun.
  assert (Harm : forallb (arm_event (build W)) tr = true).
  { destruct Hrun as [E | E].
    - destruct argv as [|a0 [|a1 rest]].
      + cbn in E. now injection E as _ <-.
      + change (Z.of_nat (length [a0])) with 1 in E.
        destruct (tb_set_title_any W a0) as [E' | [title E']]; rewrite E' in E.
        * now injection E as _ <-.
        * eapply set_title_platform_arm; eassumption.
      + unfold tb_set_title in E. cbn [length] in E.
        replace (Z.of_nat (S (S (length rest))) =? 1) with false in E
          by (symmetry; apply Z.eqb_neq; lia).
        now injection E as _ <-.
    - destruct argv as [|a0 [|a1 [|a2 rest]]].
      + cbn in E. now injection E as _ <-.
      + cbn in E. now injection E as _ <-.
      + change (Z.of_nat (length [a0; a1])) with 2 in E.
        rewrite tb_set_position_eq in E.
        destruct (int_arg a0 && int_arg a1); [|now injection E as _ <-].
        cbv zeta in E. destruct (_ || _); [now injection E as _ <-|].
        eapply set_position_platform_arm; eassumption.
      + unfold tb_set_position in E. cbn [length] in E.
        replace (Z.of_nat (S (S (S (length rest)))) =? 2) with false in E
          by (symmetry; apply Z.eqb_neq; lia).
        now injection E as _ <-. }
  split; [exact Harm|].
  intros c Hin. rewrite forallb_forall in Harm. apply Harm in Hin.
  destruct (build W); discriminate Hin.
Qed.

End Arms.

Lemma decoration_stays_on_its_arm_witness :
  tb_set_position 2 [TInt 3; TInt 4] (calm Win32) =
    Some (Return ok_set,
          [EvGetConsoleWindow; EvGetWindowRect 1; EvMoveWindow 1 3 4 640 480])
  /\ forallb (arm_event Win32)
       [EvGetConsoleWindow; EvGetWindowRect 1; EvMoveWindow 1 3 4 640 480]
     = true.
Proof.
  split; [reflexivity|].
  apply (decoration_stays_on_its_arm (calm Win32) [TInt 3; TInt 4]
           (Return ok_set)).
  right. reflexivity.
Defined.

Section Lookup.

Lemma nif_funcs_names_distinct (e1 e2 : ErlNifFunc) :
  In e1 nif_funcs -> In e2 nif_funcs -> name e1 = name e2 -> e1 = e2.
Proof.
  intros H1 H2. cbn in H1, H2.
  repeat (destruct H1 as [<- | H1]); try contradiction;
    repeat (destruct H2 as [<- | H2]); try contradiction;
    cbn; intros E; first [reflexivity | discriminate E].
Qed.

(** X8.  Looking a call up in [nif_funcs] finds an entry exactly when the
    table holds one with that name and that arity, and then it is that
    entry: no name is registered twice, so no entry hides another. *)
Theorem lookup_nif_iff (f : string) (n : nat) (e : ErlNifFunc) :
  (lookup_nif f n = Some e <->
   In e nif_funcs /\ name e = f /\ arity e = n)
  /\ (forall e', In e nif_funcs -> In e' nif_funcs ->
                 name e = name e' -> e = e').
Proof.
  split; [split|].
  - intros Hfind. unfold lookup_nif in Hfind.
    apply find_some in Hfind as [Hin Htest].
    apply andb_true_iff in Htest as [Hname Har].
    apply String.eqb_eq in Hname. apply Nat.eqb_eq in Har. auto.
  - intros (Hin & <- & <-). rewrite lookup_nif_arity by exact Hin.
    now rewrite Nat.eqb_refl.
  - intros e'. apply nif_funcs_names_distinct.
Qed.

End Lookup.

(* ------------------------------------------------------------------ *)
(** ** The Windows arm *)

Section Windows.

Variable W : world.
Hypothesis HW : build W = Win32.

Lemma set_title_platform_win32 (title : list byte) :
  set_title_platform title W =
    Some (Return (if SetConsoleTitle_ret W (cstr title) then ok_set
                  else error_string "SetConsoleTitle failed"),
          [EvSetConsoleTitle (cstr title)]).
Proof.
  unfold set_title_platform. run. rewrite HW. cbn.
  destruct (SetConsoleTitle_ret W _); reflexivity.
Qed.

Lemma tb_set_position_in_range (x y : Z) :
  0 <= x <= 32767 -> 0 <= y <= 32767 ->
  tb_set_position 2 [TInt x; TInt y] W = set_position_platform x y W.
Proof.
  intros Hx Hy. rewrite tb_set_position_eq. cbn [int_arg int_val].
  assert (fits_int x && fits_int y = true) as ->.
  { rewrite andb_true_iff, !fits_int_iff. unfold INT_MIN, INT_MAX. lia. }
  cbv zeta.
  assert ((x <? 0) || (y <? 0) || (x >? 32767) || (y >? 32767) = false) as ->.
  { rewrite !orb_false_iff, !Z.ltb_ge, !Z.gtb_ltb, !Z.ltb_ge. lia. }
  reflexivity.
Qed.

(** X6.  On the Windows build, a payload of at most 255 bytes, binary or
    Latin-1 list, makes [tb_set_title] call [SetConsoleTitle] once, with
    the payload up to its first zero byte, and nothing else: nothing is
    written to standard output.  The result is [{ok, "set"}] when the call
    returns true and [{error, "SetConsoleTitle failed"}] when it returns
    false. *)
Theorem set_title_console_api (payload : list byte) (t : term) :
  (length payload <= 255)%nat ->
  t = TBinary payload \/ t = charlist payload ->
  tb_set_title 1 [t] W =
    Some (Return (if SetConsoleTitle_ret W (cstr payload) then ok_set
                  else error_string "SetConsoleTitle failed"),
          [EvSetConsoleTitle (cstr payload)]).
Proof.
  intros Hlen Ht.
  assert (tb_set_title 1 [t] W = set_title_platform (payload ++ [x00]) W) as ->.
  { destruct Ht as [-> | ->].
    - rewrite tb_set_title_binary.
      now rewrite bool_decide_eq_false_2 by (unfold TITLE_SIZE; lia).
    - apply tb_set_title_charlist_fit. unfold TITLE_SIZE. lia. }
  rewrite set_title_platform_win32, cstr_app_nul. reflexivity.
Qed.

(** X7.  On the Windows build, for [x] and [y] in [0, 32767] and a
    console window whose rectangle can be read, [tb_set_position] asks for
    the window, reads its rectangle and moves it to [(x, y)] with the
    width and the height of that rectangle: the window keeps its size.
    The result is [{ok, "set"}] when [MoveWindow] returns true and
    [{error, "MoveWindow failed"}] when it returns false.  (The sides of
    the rectangle are taken to differ by amounts that fit [int].) *)
Theorem set_position_keeps_window_size (x y hwnd : Z) (rect : RECT) :
  0 <= x <= 32767 -> 0 <= y <= 32767 ->
  GetConsoleWindow_ret W = hwnd -> hwnd <> 0 ->
  GetWindowRect_ret W hwnd = Some rect ->
  INT_MIN <= right rect - left rect <= INT_MAX ->
  INT_MIN <= bottom rect - top rect <= INT_MAX ->
  let width := right rect - left rect in
  let height := bottom rect - top rect in
  tb_set_position 2 [TInt x; TInt y] W =
    Some (Return (if MoveWindow_ret W hwnd x y width height then ok_set
                  else error_string "MoveWindow failed"),
          [EvGetConsoleWindow; EvGetWindowRect hwnd;
           EvMoveWindow hwnd x y width height]).
Proof.
  intros Hx Hy Hwnd Hnz Hrect _ _ width height.
  rewrite tb_set_position_in_range by assumption.
  unfold set_position_platform. run. rewrite HW, Hwnd. cbn.
  replace (hwnd =? 0) with false by (symmetry; now apply Z.eqb_neq).
  cbn. rewrite Hrect. cbn. fold width height.
  destruct (MoveWindow_ret W hwnd x y width height); reflexivity.
Qed.

(** X9.  On the Windows build, for [x] and [y] in [0, 32767]: when there
    is no console window, [tb_set_position] stops after
    [GetConsoleWindow] with [{error, "GetConsoleWindow failed"}]; when the
    rectangle of the window cannot be read, it stops after
    [GetWindowRect] with [{error, "GetWindowRect failed"}].  In both cases
    [MoveWindow] is not called. *)
Theorem set_position_without_window (x y : Z) :
  0 <= x <= 32767 -> 0 <= y <= 32767 ->
  GetConsoleWindow_ret W = 0
  \/ GetWindowRect_ret W (GetConsoleWindow_ret W) = None ->
  tb_set_position 2 [TInt x; TInt y] W =
    (if GetConsoleWindow_ret W =? 0
     then Some (Return (error_string "GetConsoleWindow failed"),
                [EvGetConsoleWindow])
     else Some (Return (error_string "GetWindowRect failed"),
                [EvGetConsoleWindow;
                 EvGetWindowRect (GetConsoleWindow_ret W)])).
Proof.
  intros Hx Hy Hfail.
  rewrite tb_set_position_in_range by assumption.
  unfold set_position_platform. run. rewrite HW. cbn.
  destruct (GetConsoleWindow_ret W =? 0) eqn:Ez; [reflexivity|].
  destruct Hfail as [Hz | Hnone].
  - rewrite Hz in Ez. discriminate Ez.
  - cbn. rewrite Hnone. reflexivity.
Qed.

End Windows.

Lemma set_title_console_api_witness :
  tb_set_title 1 [charlist (bytes "raxol")] (calm Win32) =
    Some (Return ok_set, [EvSetConsoleTitle (bytes "raxol")]).
Proof.
  exact (set_title_console_api (calm Win32) eq_refl (bytes "raxol") _
           ltac:(cbn; lia) (or_intror eq_refl)).
Defined.

Lemma set_position_keeps_window_size_witness :
  tb_set_position 2 [TInt 3; TInt 4] (calm Win32) =
    Some (Return ok_set,
          [EvGetConsoleWindow; EvGetWindowRect 1; EvMoveWindow 1 3 4 640 480]).
Proof.
  exact (set_position_keeps_window_size (calm Win32) eq_refl 3 4 1
           (mkRECT 0 0 640 480) ltac:(lia) ltac:(lia) eq_refl ltac:(lia)
           eq_refl ltac:(unfold INT_MIN, INT_MAX; cbn; lia)
           ltac:(unfold INT_MIN, INT_MAX; cbn; lia)).
Defined.

Lemma set_position_without_window_witness :
  let headless :=
    mkWorld Win32 (fun _ => 0) (fun _ => 0) (fun _ => true) 0
            (fun _ => None) (fun _ _ _ _ _ => true) (fun _ => xff) 0 in
  tb_set_position 2 [TInt 3; TInt 4] headless =
    Some (Return (error_string "GetConsoleWindow failed"),
          [EvGetConsoleWindow]).
Proof.
  exact (set_position_without_window
           (mkWorld Win32 (fun _ => 0) (fun _ => 0) (fun _ => true) 0
                    (fun _ => None) (fun _ _ _ _ _ => true) (fun _ => xff) 0)
           eq_refl 3 4 ltac:(lia) ltac:(lia) (or_introl eq_refl)).
Defined.

(* ------------------------------------------------------------------ *)
(** ** Titles given as lists *)

Section TitleLists.

(** The loop walks over a prefix of code points that fits. *)
Lemma get_string_loop_prepend (bs : list byte) (tl : term)
    (buf : list byte) (n len : nat) :
  (n + length bs < len)%nat -> (len <= length buf)%nat ->
  get_string_loop (prepend bs tl) buf n len =
    get_string_loop tl (take n buf ++ bs ++ drop (n + length bs) buf)
                    (n + length bs) len.
Proof.
  revert buf n. induction bs as [|b bs IH]; intros buf n Hfit Hbuf;
    cbn [length] in Hfit.
  - cbn. now rewrite Nat.add_0_r, take_drop.
  - cbn [prepend foldr get_string_loop]. rewrite is_byte_charcode.
    rewrite bool_decide_eq_false_2 by lia.
    fold (prepend bs tl). rewrite IH by (rewrite ?length_insert; lia).
    cbn [length]. rewrite Nat.add_succ_r. cbn [Nat.add]. f_equal.
    rewrite (take_S_r _ n b) by (apply list_lookup_insert_eq; lia).
    rewrite take_insert_ge by lia. rewrite drop_insert_lt by lia.
    now rewrite <- app_assoc.
Qed.

(** Once the buffer is full the rest of the list is not looked at. *)
Lemma get_string_loop_prepend_truncated (bs : list byte) (tl : term)
    (buf : list byte) (n len : nat) :
  (n < len)%nat -> (len <= n + length bs)%nat -> (len <= length buf)%nat ->
  get_string_loop (prepend bs tl) buf n len =
    (- Z.of_nat len,
     take n buf ++ take (len - 1 - n) bs ++ x00 :: drop len buf).
Proof.
  revert buf n. induction bs as [|b bs IH]; intros buf n Hn Hlong Hbuf;
    cbn [length] in Hlong; [lia|].
  cbn [prepend foldr get_string_loop]. rewrite is_byte_charcode.
  fold (prepend bs tl). destruct (decide (len ≤ S n)%nat) as [Hfull|Hroom].
  - rewrite bool_decide_eq_true_2 by exact Hfull.
    assert (len = S n) as -> by lia.
    rewrite list_insert_insert_eq, insert_take_drop by lia.
    replace (S n - 1 - n)%nat with 0%nat by lia. reflexivity.
  - rewrite bool_decide_eq_false_2 by exact Hroom.
    rewrite IH by (rewrite ?length_insert; lia). f_equal.
    rewrite (take_S_r _ n b) by (apply list_lookup_insert_eq; lia).
    rewrite take_insert_ge by lia. rewrite drop_insert_lt by lia.
    replace (len - 1 - n)%nat with (S (len - 1 - S n)) by lia.
    cbn [take]. now rewrite <- app_assoc.
Qed.

Lemma get_string_loop_not_a_string (tl : term) (buf : list byte) (n len : nat) :
  not_a_string tl = true -> fst (get_string_loop tl buf n len) = 0.
Proof.
  destruct tl; cbn; try reflexivity; try discriminate.
  destruct (is_byte tl1); [discriminate | reflexivity].
Qed.

Variable W : world.

(** X10.  [tb_set_title] turns down, with [{error, badarg}] and before
    any outside call, every argument that is not a binary and stops
    being a Latin-1 string within its first 256 elements: a term that is
    no list at all (integer, atom, tuple), a list with an element that is
    no code point in [0, 255], a list that ends in something other than
    the empty list. *)
Theorem set_title_rejects_non_strings (bs : list byte) (tl : term) :
  (length bs <= 255)%nat -> not_a_string tl = true ->
  enif_is_binary (prepend bs tl) = false ->
  tb_set_title 1 [prepend bs tl] W = Some (Return error_badarg, []).
Proof.
  intros Hlen Hbad Hnb. unfold tb_set_title. run. rewrite Hnb.
  unfold enif_get_string. rewrite bool_decide_eq_false_2 by (unfold TITLE_SIZE; lia).
  rewrite get_string_loop_prepend
    by (rewrite ?length_block; unfold TITLE_SIZE; cbn; lia).
  pose proof (get_string_loop_not_a_string tl
    (take 0 (block W TITLE_SIZE) ++ bs ++ drop (0 + length bs) (block W TITLE_SIZE))
    (0 + length bs) TITLE_SIZE Hbad) as Hrc.
  destruct (get_string_loop tl _ _ _) as [rc title']. cbn in Hrc. subst rc.
  reflexivity.
Qed.

(** X11.  [tb_set_title] looks at no more than the first 256 elements of
    a list: when these are Latin-1 code points, whatever comes after them
    (more characters, elements that are no characters, an improper tail),
    the argument is accepted and the title is its first 255 bytes. *)
Theorem set_title_reads_256_elements (bs : list byte) (tl : term) :
  (256 <= length bs)%nat ->
  tb_set_title 1 [prepend bs tl] W
    = set_title_platform (take 255 bs ++ [x00]) W.
Proof.
  intros Hbig. unfold tb_set_title. run.
  assert (enif_is_binary (prepend bs tl) = false) as ->.
  { destruct bs; [cbn in Hbig; lia | reflexivity]. }
  unfold enif_get_string. rewrite bool_decide_eq_false_2 by (unfold TITLE_SIZE; lia).
  rewrite get_string_loop_prepend_truncated
    by (rewrite ?length_block; unfold TITLE_SIZE; cbn; lia).
  assert ((- Z.of_nat TITLE_SIZE =? 0) = false) as ->
    by (apply Z.eqb_neq; unfold TITLE_SIZE; lia).
  cbn. rewrite !bind_id. apply set_title_platform_terminated.
Qed.

End TitleLists.

Lemma set_title_rejects_non_strings_witness :
  tb_set_title 1 [TInt 5] (calm Posix) = Some (Return error_badarg, [])
  /\ tb_set_title 1 [TCons (TInt 104) (TCons (TInt 256) TNil)] (calm Posix)
     = Some (Return error_badarg, [])
  /\ tb_set_title 1 [TCons (TInt 104) (TAtom "i")] (calm Posix)
     = Some (Return error_badarg, []).
Proof.
  split; [|split].
  - exact (set_title_rejects_non_strings (calm Posix) [] (TInt 5)
             ltac:(cbn; lia) eq_refl eq_refl).
  - exact (set_title_rejects_non_strings (calm Posix) [x68]
             (TCons (TInt 256) TNil) ltac:(cbn; lia) eq_refl eq_refl).
  - exact (set_title_rejects_non_strings (calm Posix) [x68] (TAtom "i")
             ltac:(cbn; lia) eq_refl eq_refl).
Defined.

Lemma set_title_reads_256_elements_witness :
  tb_set_title 1 [prepend (repeat x61 256) (TAtom "junk")] (calm Posix)
    = Some (Return ok_set,
            [EvPrintf (ESC :: bytes "]0;" ++ repeat x61 255 ++ [BEL]);
             EvFflush]).
Proof.
  rewrite (set_title_reads_256_elements (calm Posix) (repeat x61 256)
             (TAtom "junk")) by (rewrite repeat_length; lia).
  vm_compute. reflexivity.
Defined.

Section TitleLength.



Variable W : world.



End TitleLength.


(* ------------------------------------------------------------------ *)
(** ** The position sequence names one position *)

Section PositionSequence.

Lemma bytes_of_uint_no_semicolon (d : Decimal.uint) : x3b ∉ bytes_of_uint d.
Proof.
  induction d; cbn; [apply not_elem_of_nil|..];
    (apply not_elem_of_cons; split; [discriminate | exact IHd]).
Qed.

Lemma fmt_d_no_semicolon (z : Z) : x3b ∉ fmt_d z.
Proof.
  unfold fmt_d. destruct (Z.to_int z) as [d|d].
  - apply bytes_of_uint_no_semicolon.
  - apply not_elem_of_cons. split; [discriminate|].
    apply bytes_of_uint_no_semicolon.
Qed.

(** Two lists cut at their first separator agree piece by piece. *)
Lemma app_separator_inj (s : byte) (l1 l2 r1 r2 : list byte) :
  s ∉ l1 -> s ∉ l2 -> l1 ++ s :: r1 = l2 ++ s :: r2 -> l1 = l2 /\ r1 = r2.
Proof.
  revert l2. induction l1 as [|a l1 IH]; intros [|b l2] H1 H2 E; cbn in E.
  - injection E as ->. auto.
  - injection E as <- _. exfalso. apply H2. apply elem_of_cons. now left.
  - injection E as -> _. exfalso. apply H1. apply elem_of_cons. now left.
  - injection E as -> E. apply not_elem_of_cons in H1 as [_ H1].
    apply not_elem_of_cons in H2 as [_ H2].
    destruct (IH l2 H1 H2 E) as [-> ->]. auto.
Qed.

Lemma position_sequence_inj (x y x' y' : Z) :
  position_sequence x y = position_sequence x' y' -> x = x' /\ y = y'.
Proof.
  unfold position_sequence. cbn. intros E. injection E as E.
  apply app_separator_inj in E as [Ey Ex]; try apply fmt_d_no_semicolon.
  apply app_inv_tail in Ex. split; now apply fmt_d_inj.
Qed.

Variable W : world.
Hypothesis HW : build W = Posix.

Lemma tb_set_position_first_event (x y : Z) :
  0 <= x <= 32767 -> 0 <= y <= 32767 ->
  exists r rest,
    tb_set_position 2 [TInt x; TInt y] W
      = Some (r, EvPrintf (position_sequence x y) :: rest).
Proof.
  intros Hx Hy. rewrite tb_set_position_eq. cbn [int_arg int_val].
  assert (fits_int x && fits_int y = true) as ->.
  { rewrite andb_true_iff, !fits_int_iff. unfold INT_MIN, INT_MAX. lia. }
  cbv zeta.
  assert ((x <? 0) || (y <? 0) || (x >? 32767) || (y >? 32767) = false) as ->.
  { rewrite !orb_false_iff, !Z.ltb_ge, !Z.gtb_ltb, !Z.ltb_ge. lia. }
  rewrite set_position_platform_posix by exact HW.
  fold (position_sequence x y).
  destruct (printf_ret W _ <? 0); eauto.
Qed.

(** X13.  On the Unix build, two calls of [tb_set_position] with
    positions in range that leave the same trace were calls for the same
    position: the bytes written determine [x] and [y], so no two
    positions are ever sent as the same sequence. *)
Theorem set_position_trace_determines_position
    (x y x' y' : Z) (r r' : nif_result) (tr : trace) :
  0 <= x <= 32767 -> 0 <= y <= 32767 ->
  0 <= x' <= 32767 -> 0 <= y' <= 32767 ->
  tb_set_position 2 [TInt x; TInt y] W = Some (r, tr) ->
  tb_set_position 2 [TInt x'; TInt y'] W = Some (r', tr) ->
  x = x' /\ y = y'.
Proof.
  intros Hx Hy Hx' Hy' E E'.
  destruct (tb_set_position_first_event x y Hx Hy) as (r0 & rest & F).
  destruct (tb_set_position_first_event x' y' Hx' Hy') as (r0' & rest' & F').
  rewrite F in E. rewrite F' in E'.
  apply position_sequence_inj. congruence.
Qed.

End PositionSequence.

Lemma set_position_trace_determines_position_witness :
  tb_set_position 2 [TInt 10; TInt 20] (calm Posix)
    = Some (Return ok_set, [EvPrintf (position_sequence 10 20); EvFflush])
  /\ (10 = 10 /\ 20 = 20).
Proof.
  split; [reflexivity|].
  apply (set_position_trace_determines_position (calm Posix) eq_refl
           10 20 10 20 (Return ok_set) (Return ok_set)
           [EvPrintf (position_sequence 10 20); EvFflush]);
    first [lia | reflexivity].
Defined.

(* ------------------------------------------------------------------ *)
(** ** Printing text *)

Section Print.

Variable W : world.

(** X14.  [nif_tb_print] puts no bound on the length of its text: for
    coordinates that fit [int], attributes that fit [unsigned int] and a
    binary of any length without a zero byte, the engine receives all of
    the binary, and the handler returns the integer the engine returned.
    An Erlang string (a list) in place of the binary raises [badarg]
    with nothing done, although [tb_set_title] takes one. *)
Theorem print_forwards_whole_text (x y fg bg : Z) (text : list byte) :
  INT_MIN <= x <= INT_MAX -> INT_MIN <= y <= INT_MAX ->
  0 <= fg <= UINT_MAX -> 0 <= bg <= UINT_MAX ->
  x00 ∉ text ->
  nif_tb_print 5 [TInt x; TInt y; TInt fg; TInt bg; TBinary text] W =
    Some (Return (TInt (engine_ret W (Tb_print x y fg bg text))),
          [EvEngine (Tb_print x y fg bg text)])
  /\ nif_tb_print 5 [TInt x; TInt y; TInt fg; TInt bg; charlist text] W =
    Some (RaiseBadarg, []).
Proof.
  intros Hx Hy Hfg Hbg Hnul.
  apply fits_int_iff in Hx, Hy. apply fits_uint_iff in Hfg, Hbg.
  rewrite !nif_tb_print_eq. cbn [int_arg uint_arg int_val binary_arg binary_val].
  rewrite Hx, Hy, Hfg, Hbg. cbn [andb]. cbv zeta.
  rewrite cstr_no_nul by exact Hnul. split; [reflexivity|].
  assert (binary_arg (charlist text) = false) as -> by (now destruct text).
  reflexivity.
Qed.

End Print.

Lemma print_forwards_whole_text_witness :
  nif_tb_print 5 [TInt 0; TInt 0; TInt 7; TInt 0; TBinary (repeat x61 300)]
               (calm Posix) =
    Some (Return (TInt 0),
          [EvEngine (Tb_print 0 0 7 0 (repeat x61 300))])
  /\ nif_tb_print 5 [TInt 0; TInt 0; TInt 7; TInt 0; charlist (repeat x61 300)]
                  (calm Posix) =
    Some (RaiseBadarg, []).
Proof.
  apply (print_forwards_whole_text (calm Posix) 0 0 7 0 (repeat x61 300));
    try (unfold INT_MIN, INT_MAX, UINT_MAX; lia).
  intros Hin. apply list_elem_of_In, repeat_spec in Hin. discriminate Hin.
Defined.

(* ------------------------------------------------------------------ *)
(** ** Flushing *)

Section Flush.

Variable W : world.
Hypothesis HW : build W = Posix.

Lemma platform_posix_flush (out : list byte) (msg : string)
    (r : nif_result) (tr : trace) :
  (if printf_ret W out <? 0
   then Some (Return (error_string msg), [EvPrintf out])
   else Some (Return ok_set, [EvPrintf out; EvFflush])) = Some (r, tr) ->
  (r = Return ok_set <-> In EvFflush tr)
  /\ (r = Return ok_set -> exists out', tr = [EvPrintf out'; EvFflush]).
Proof.
  destruct (printf_ret W out <? 0); intros [= <- <-].
  - split; [split|]; try discriminate.
    cbn. intros [E | []]. discriminate E.
  - split; [split|].
    + intros _. cbn. auto.
    + reflexivity.
    + intros _. eauto.
Qed.

(** X15.  On the Unix build, for either decoration handler and any
    arguments: the answer is [{ok, "set"}] exactly when standard output
    was flushed, and then the handler has done two things only, one
    [printf] and the flush after it.  A failed [printf] and a rejected
    argument are never followed by a flush. *)
Theorem set_exactly_when_flushed
    (argv : list term) (r : nif_result) (tr : trace) :
  tb_set_title (Z.of_nat (length argv)) argv W = Some (r, tr)
  \/ tb_set_position (Z.of_nat (length argv)) argv W = Some (r, tr) ->
  (r = Return ok_set <-> In EvFflush tr)
  /\ (r = Return ok_set -> exists out, tr = [EvPrintf out; EvFflush]).
Proof.
  assert (Hbad : forall r tr,
            Some (Return error_badarg, @nil event) = Some (r, tr) ->
            (r = Return ok_set <-> In EvFflush tr)
            /\ (r = Return ok_set -> exists out, tr = [EvPrintf out; EvFflush])).
  { intros r0 tr0 [= <- <-]. split; [split|]; try discriminate.
    intros []. }
  intros [E | E].
  - destruct argv as [|a0 [|a1 rest]].
    + cbn in E. now apply Hbad.
    + change (Z.of_nat (length [a0])) with 1 in E.
      destruct (tb_set_title_any W a0) as [E' | [title E']]; rewrite E' in E.
      * now apply Hbad.
      * rewrite set_title_platform_posix in E by exact HW.
        eapply platform_posix_flush; exact E.
    + unfold tb_set_title in E. cbn [length] in E.
      replace (Z.of_nat (S (S (length rest))) =? 1) with false in E
        by (symmetry; apply Z.eqb_neq; lia).
      now apply Hbad.
  - destruct argv as [|a0 [|a1 [|a2 rest]]].
    + cbn in E. now apply Hbad.
    + cbn in E. now apply Hbad.
    + change (Z.of_nat (length [a0; a1])) with 2 in E.
      rewrite tb_set_position_eq in E.
      destruct (int_arg a0 && int_arg a1); [|now apply Hbad].
      cbv zeta in E. destruct (_ || _); [now apply Hbad|].
      rewrite set_position_platform_posix in E by exact HW.
      eapply platform_posix_flush; exact E.
    + unfold tb_set_position in E. cbn [length] in E.
      replace (Z.of_nat (S (S (S (length rest)))) =? 2) with false in E
        by (symmetry; apply Z.eqb_neq; lia).
      now apply Hbad.
Qed.

End Flush.

Lemma set_exactly_when_flushed_witness :
  tb_set_title 1 [TBinary (bytes "raxol")] broken_stdout
    = Some (Return (error_string "Failed to set title"),
            [EvPrintf (ESC :: bytes "]0;raxol" ++ [BEL])])
  /\ (Return (error_string "Failed to set title") = Return ok_set <->
      In EvFflush [EvPrintf (ESC :: bytes "]0;raxol" ++ [BEL])]).
Proof.
  split; [reflexivity|].
  apply (set_exactly_when_flushed broken_stdout eq_refl
           [TBinary (bytes "raxol")]
           (Return (error_string "Failed to set title"))
           [EvPrintf (ESC :: bytes "]0;raxol" ++ [BEL])]).
  left. reflexivity.
Defined.
